(** * IEEE 1115-2014 battery sizing: a shallow embedding of [process.py]

    The script sizes a nickel-cadmium battery for an engine-starting duty
    cycle.  Its calculation core starts once the two CSV tables are loaded:
    the starting sequence (one row per period) and the discharge curve, which
    the script hands to [scipy.interpolate.interp1d].

    Modelling choices.
    - Python [float] / [numpy.float64] values are idealised as exact
      rationals [Q]: rounding is not modelled.  A division by zero, which
      numpy answers with [inf] or [nan] and a warning (not an exception), is
      kept apart as a non-finite value.  The equalities between what the
      script computes and the formulas of the description are equalities of
      terms: both sides apply the same operations in the same order.
    - Python [int] values (period and section numbers) are [Z].
    - The interpolant built by scipy is library code: it is a parameter
      [ampsByDurationFunction : Q -> Q] of the development.
    - Exceptions are an [exn] value, one constructor per [raise] site or
      library failure; printed lines are collected in an output trace that
      survives an exception, as the terminal does.
    - What depends on the control flow alone (which sections are evaluated,
      which exceptions can arise) is proved on a second embedding,
      [Generic], whose floats are a parameter: it follows the script through
      zero currents, infinities and NaN, where the rational embedding
      stops. *)

From Stdlib Require Import ZArith QArith List String Ascii Bool Lia Lqa.
From Stdlib Require PrimFloat FloatOps SpecFloat.
Import ListNotations.

Local Open Scope Z_scope.

(** ** Values, exceptions and outcomes *)

(** Result of a numpy float division. *)
Inductive npfloat : Type :=
| Finite (q : Q)
| Infinite
| NotANumber.

Inductive exn : Type :=
| IndexError_unfit (periodName : string) (period : Z)
    (* checkPeriod: "{periodName}={period} unfit (not in [1, n] range)" *)
| IndexError_order (firstPeriod lastPeriod : Z)
    (* durationBetweenPeriods: "firstPeriod (..) > lastPeriod (..)" *)
| IndexError_bounds (index : Z)
    (* numpy: index out of bounds for axis 0 *)
| ValueError_empty_max
    (* numpy: zero-size array to reduction operation maximum *)
| OverflowError_infinity
    (* int(): cannot convert float infinity to integer *)
| ValueError_nan.
    (* int(): cannot convert float NaN to integer *)

(** [NonFinite]: the script goes on with an [inf] or [nan] that the rational
    idealisation does not follow. *)
Inductive outcome (A : Type) : Type :=
| Ok (a : A)
| Raise (e : exn)
| NonFinite.

Arguments Ok {A} a.
Arguments Raise {A} e.
Arguments NonFinite {A}.

Definition obind {A B : Type} (o : outcome A) (f : A -> outcome B) : outcome B :=
  match o with
  | Ok a => f a
  | Raise e => Raise e
  | NonFinite => NonFinite
  end.

(** ** Rational helpers *)

Definition Qlt_bool (x y : Q) : bool :=
  (Qnum x * QDen y <? Qnum y * QDen x)%Z.

(** numpy's [/] on floats: never raises. *)
Definition np_true_divide (a b : Q) : npfloat :=
  if Qeq_bool b 0 then
    if Qeq_bool a 0 then NotANumber else Infinite
  else Finite (a / b)%Q.

(** Python's [int(x)] on a float: truncation toward zero. *)
Definition trunc (x : Q) : Z := Z.quot (Qnum x) (QDen x).

Definition py_int (x : npfloat) : outcome Z :=
  match x with
  | Finite q => Ok (trunc q)
  | Infinite => Raise OverflowError_infinity
  | NotANumber => Raise ValueError_nan
  end.

(** A float the idealisation follows, or [NonFinite]. *)
Definition finite (x : npfloat) : outcome Q :=
  match x with
  | Finite q => Ok q
  | _ => NonFinite
  end.

(** [a.sum()].  numpy adds the elements in blocks; over the rationals the
    order does not change the value, and the sum is taken from left to
    right. *)
Definition np_sum (a : list Q) : Q := fold_left Qplus a 0%Q.

(** [a.max()] *)
Definition np_max (a : list Q) : outcome Q :=
  match a with
  | [] => Raise ValueError_empty_max
  | x :: t => Ok (fold_left (fun m y => if Qlt_bool m y then y else m) t x)
  end.

(** ** Sequences: indexing, slicing, ranges *)

(** [a[i]] with Python's negative indices. *)
Definition np_getitem {A : Type} (a : list A) (i : Z) : outcome A :=
  let n := Z.of_nat (List.length a) in
  let j := if i <? 0 then i + n else i in
  if (0 <=? j) && (j <? n) then
    match nth_error a (Z.to_nat j) with
    | Some x => Ok x
    | None => Raise (IndexError_bounds i)
    end
  else Raise (IndexError_bounds i).

(** [a[start:stop]] with Python's clamping of the bounds. *)
Definition np_slice {A : Type} (a : list A) (start stop : Z) : list A :=
  let n := Z.of_nat (List.length a) in
  let norm i := if i <? 0 then Z.max 0 (i + n) else Z.min i n in
  let s := norm start in
  let e := norm stop in
  firstn (Z.to_nat (e - s)) (skipn (Z.to_nat s) a).

(** [range(lo, hi)] *)
Definition py_range (lo hi : Z) : list Z :=
  map (fun i => lo + Z.of_nat i) (seq 0 (Z.to_nat (hi - lo))).

(** ** Data *)

(** One row of the starting sequence:
    0: period duration (s), 1: current (A), 2: starting cycle number. *)
Record row : Type := mkRow {
  duration : Q;
  amps : Q;
  cycle : Z
}.

(** The fields of [IEEE1115] the calculation reads. *)
Record IEEE1115 : Type := mkIEEE1115 {
  nominalCapacity : Q;
  numberOfSections : Z;
  verbose : bool;
  deratingFactorOnTemp : Q;
  randomSize : Q;
  designMargin : Q;
  agingFactor : Q;
  finalTolerance : Q
}.

(** What [print] writes, one constructor per [print] call of the core; the
    number formatting is left out, the values are kept. *)
Inductive line : Type :=
| SectionSkippedLine (section : Z)
| SectionLine (section : Z)
| ColumnsLine
| PeriodLine (period : Z)
    (load changeInLoad duration durationToSectionEnd kt
       tempDeratingFactor requiredSectionSize : Q)
| TotalLine (maxRequiredSectionSize : Q)
| ResultTestingLine (cycleNb : Z)
| MaximumSectionSizeLine (maximumSectionSize randomSize : Q)
| UncorrectedSizeLine (uncorrectedSize : Q)
| FactorsLine (uncorrectedSize designMargin agingFactor : Q)
| SizeLine (size : Q)
| BatteriesLine (numberOfBatteriesRequired : Z) (finalTolerance : Q).

(** The variables the script ends with. *)
Record SizingReport : Type := mkReport {
  cycleNb : Z;
  maximumSectionSize : Q;
  uncorrectedSize : Q;
  size : Q;
  numberOfBatteriesRequired : Z
}.

(** ** The script monad: an outcome and the lines printed so far *)

Definition M (A : Type) : Type := list line -> outcome A * list line.

Definition ret {A : Type} (a : A) : M A := fun out => (Ok a, out).

Definition bind {A B : Type} (m : M A) (f : A -> M B) : M B :=
  fun out =>
    match m out with
    | (Ok a, out') => f a out'
    | (Raise e, out') => (Raise e, out')
    | (NonFinite, out') => (NonFinite, out')
    end.

Definition lift {A : Type} (o : outcome A) : M A := fun out => (o, out).

Definition print (l : line) : M unit := fun out => (Ok tt, out ++ [l]).

Definition when (b : bool) (m : M unit) : M unit := if b then m else ret tt.

Declare Scope script_scope.
Delimit Scope script_scope with script.
Notation "x <- m ;; k" := (bind m (fun x => k))
  (at level 61, m at next level, right associativity) : script_scope.
Notation "m ;;; k" := (bind m (fun _ => k))
  (at level 61, right associativity) : script_scope.

(** [for x in xs: st = body st x] *)
Fixpoint for_each {X St : Type} (xs : list X) (st : St)
    (body : St -> X -> M St) : M St :=
  match xs with
  | [] => ret st
  | x :: xs' => bind (body st x) (fun st' => for_each xs' st' body)
  end.

(** [n] is [x] with its fractional part dropped. *)
Definition truncated_toward_zero (x : Q) (n : Z) : Prop :=
  ((0 <= x -> inject_Z n <= x /\ x < inject_Z n + 1)
   /\ (x <= 0 -> inject_Z n - 1 < x /\ x <= inject_Z n))%Q.

(** The lines of the final report. *)
Definition report_line (l : line) : bool :=
  match l with
  | ResultTestingLine _ | MaximumSectionSizeLine _ _ | UncorrectedSizeLine _
  | FactorsLine _ _ _ | SizeLine _ | BatteriesLine _ _ => true
  | _ => false
  end.

(** ** Time stamps *)

(** [secToHMS]: the hours, minutes and seconds that the script formats as
    [HH:MM:SS.S]; the formatting into text is left out. *)
Definition secToHMS (sec : Q) : Z * Z * Q :=
  let intSec := trunc sec in
  let h := trunc (inject_Z intSec / 3600) in
  let intSec := intSec mod 3600 in
  let m := trunc (inject_Z intSec / 60) in
  let s := (sec - inject_Z (3600 * h) - inject_Z (60 * m))%Q in
  (h, m, s).

(** [s.split(':')] *)
Fixpoint split_colon (s : string) : list string :=
  match s with
  | EmptyString => [EmptyString]
  | String c rest =>
      if Ascii.eqb c ":" then EmptyString :: split_colon rest
      else match split_colon rest with
           | x :: xs => String c x :: xs
           | [] => [String c EmptyString]
           end
  end.

Definition count_colons (s : string) : nat :=
  List.length (filter (fun c => Ascii.eqb c ":") (list_ascii_of_string s)).

Inductive getSec_error : Type :=
| ValueError_unpack (fields : nat)
    (* not enough / too many values to unpack (expected 3) *)
| ValueError_int (text : string)
    (* int(): invalid literal *)
| ValueError_float (text : string).
    (* float(): could not convert string to float *)

Inductive getSec_outcome : Type :=
| Seconds (x : npfloat)
| GetSecError (e : getSec_error).

(** An integer plus a float. *)
Definition int_plus_float (k : Z) (x : npfloat) : npfloat :=
  match x with
  | Finite q => Finite (inject_Z k + q)%Q
  | Infinite => Infinite
  | NotANumber => NotANumber
  end.

Section GetSec.

(** Python's [int(text)] and [float(text)] on strings are builtins: they are
    parameters, [None] standing for their [ValueError]. *)
Variable py_int_of_str : string -> option Z.
Variable py_float_of_str : string -> option npfloat.

Definition getSec (timeStr : string) : getSec_outcome :=
  match split_colon timeStr with
  | [h; m; s] =>
      match py_int_of_str h with
      | None => GetSecError (ValueError_int h)
      | Some hours =>
          match py_int_of_str m with
          | None => GetSecError (ValueError_int m)
          | Some minutes =>
              match py_float_of_str s with
              | None => GetSecError (ValueError_float s)
              | Some seconds =>
                  Seconds (int_plus_float (hours * 3600 + minutes * 60) seconds)
              end
          end
      end
  | fields => GetSecError (ValueError_unpack (List.length fields))
  end.

End GetSec.



(** ** A discharge curve and a duty cycle for the examples *)

Module Example.

(** The polynomial of least degree through the samples (Lagrange form).
    Through four samples it is the cubic that a not-a-knot cubic spline
    reduces to. *)
Definition lagrange_basis (xs : list Q) (xi x : Q) : Q :=
  fold_left (fun acc xj =>
               if Qeq_bool xj xi then acc
               else (acc * ((x - xj) / (xi - xj)))%Q) xs 1%Q.

Definition lagrange (samples : list (Q * Q)) (x : Q) : Q :=
  fold_left (fun acc s =>
               (acc + snd s * lagrange_basis (map fst samples) (fst s) x)%Q)
            samples 0%Q.

Definition samples : list (Q * Q) :=
  [(1, 100); (10, 90); (100, 50); (1000, 20)]%Q.

Definition curve (d : Q) : Q := Qred (lagrange samples d).

Definition twoPeriods : list row :=
  [mkRow 5 80 1; mkRow 10 120 1]%Q.

(** A load that drops, and a first period long enough to leave the range
    where the curve is positive. *)
Definition dropping : list row :=
  [mkRow 5 120 1; mkRow 10 80 2]%Q.

Definition longFirst : list row :=
  [mkRow 1500 80 1; mkRow 10 60 1]%Q.

Definition params (sections : Z) (verb : bool) : IEEE1115 :=
  mkIEEE1115 100 sections verb 1 5 (11 # 10) (12 # 10) (9 # 10).

End Example.

(** ** The control flow of the script, for any arithmetic

    A second embedding of lines 84 to 163, where the floats and their
    operations are parameters about which nothing is assumed: what is proved
    of it holds of binary64 with its rounding, its infinities and its NaN.
    Only the control flow, the lookups and the places where an exception can
    arise are modelled; the text that is printed is not. *)

Module Generic.

Inductive exn : Type :=
| IndexError_unfit (periodName : string) (period : Z)
    (* checkPeriod *)
| IndexError_order (firstPeriod lastPeriod : Z)
    (* durationBetweenPeriods *)
| IndexError_bounds (index : Z)
    (* numpy: index out of bounds *)
| ValueError_empty_max
    (* numpy: zero-size array to reduction operation maximum *)
| OverflowError
    (* a float infinity to an integer, an integer too large for a float *)
| ValueError_nan.
    (* a float NaN to an integer *)

Inductive result (A : Type) : Type :=
| Done (a : A)
| Raise (e : exn).

Arguments Done {A} a.
Arguments Raise {A} e.

(** A conversion between integers and floats: it succeeds, or raises
    [OverflowError], or raises [ValueError]. *)
Inductive conversion (A : Type) : Type :=
| Converted (a : A)
| Overflow
| NotNumber.

Arguments Converted {A} a.
Arguments Overflow {A}.
Arguments NotNumber {A}.

Definition of_conversion {A : Type} (c : conversion A) : result A :=
  match c with
  | Converted a => Done a
  | Overflow => Raise OverflowError
  | NotNumber => Raise ValueError_nan
  end.

Definition rbind {A B : Type} (r : result A) (f : A -> result B) : result B :=
  match r with
  | Done a => f a
  | Raise e => Raise e
  end.

Declare Scope generic_scope.
Delimit Scope generic_scope with generic.
Notation "x <- m ;; k" := (rbind m (fun x => k))
  (at level 61, m at next level, right associativity) : generic_scope.
Notation "m ;;; k" := (rbind m (fun _ => k))
  (at level 61, right associativity) : generic_scope.

(** [a[i]] with Python's negative indices. *)
Definition getitem {A : Type} (a : list A) (i : Z) : result A :=
  let n := Z.of_nat (List.length a) in
  let j := if i <? 0 then i + n else i in
  if (0 <=? j) && (j <? n) then
    match nth_error a (Z.to_nat j) with
    | Some x => Done x
    | None => Raise (IndexError_bounds i)
    end
  else Raise (IndexError_bounds i).

(** [for x in xs: st = body st x] *)
Fixpoint for_each {X St : Type} (xs : list X) (st : St)
    (body : St -> X -> result St) : result St :=
  match xs with
  | [] => Done st
  | x :: xs' => rbind (body st x) (fun st' => for_each xs' st' body)
  end.

(** The floats of the script with the operations it applies to them. *)
Record arithmetic : Type := mkArithmetic {
  F : Type;
  fadd : F -> F -> F;
  fsub : F -> F -> F;
  fmul : F -> F -> F;
  fdiv : F -> F -> F;
  flt : F -> F -> bool;
  fzero : F;
  (* [a.sum()] and, on an array that is not empty, [a.max()] *)
  array_sum : list F -> F;
  array_max : list F -> F;
  (* [int(x)] on a float *)
  py_int : F -> conversion Z;
  (* [i / j] on two integers, [x - i] on a float and an integer *)
  int_truediv : Z -> Z -> conversion F;
  float_sub_int : F -> Z -> conversion F;
  (* an integer under the format [02.0f] *)
  format_int : Z -> conversion unit
}.

Section Script.

Variable A : arithmetic.

Record row : Type := mkRow {
  duration : F A;
  amps : F A;
  cycle : Z
}.

Record IEEE1115 : Type := mkIEEE1115 {
  nominalCapacity : F A;
  numberOfSections : Z;
  verbose : bool;
  deratingFactorOnTemp : F A;
  randomSize : F A;
  designMargin : F A;
  agingFactor : F A;
  finalTolerance : F A
}.

Record SizingReport : Type := mkReport {
  cycleNb : Z;
  maximumSectionSize : F A;
  uncorrectedSize : F A;
  size : F A;
  numberOfBatteriesRequired : Z
}.

Variable testParams : IEEE1115.
Variable startingSequence : list row.
Variable ampsByDurationFunction : F A -> F A.

Local Open Scope generic_scope.

(** Lines 84 to 90; the text itself is left out. *)
Definition secToHMS (sec : F A) : result unit :=
  intSec <- of_conversion (py_int A sec) ;;
  hours <- of_conversion (int_truediv A intSec 3600) ;;
  h <- of_conversion (py_int A hours) ;;
  let intSec := intSec mod 3600 in
  minutes <- of_conversion (int_truediv A intSec 60) ;;
  m <- of_conversion (py_int A minutes) ;;
  s' <- of_conversion (float_sub_int A sec (3600 * h)) ;;
  s <- of_conversion (float_sub_int A s' (60 * m)) ;;
  of_conversion (format_int A h) ;;;
  of_conversion (format_int A m) ;;;
  Done tt.

Definition ktFactorFunction (duration : F A) : F A :=
  fdiv A (nominalCapacity testParams) (ampsByDurationFunction duration).

Definition startingSequenceLength : Z :=
  Z.of_nat (List.length startingSequence).

Definition checkPeriod (period : Z) (periodName : string) : result unit :=
  if (period <? 1) || (period >? startingSequenceLength) then
    Raise (IndexError_unfit periodName period)
  else Done tt.

Definition durationBetweenPeriods (firstPeriod lastPeriod : Z)
    : result (F A) :=
  checkPeriod firstPeriod "durationBetweenPeriods::firstPeriod" ;;;
  checkPeriod lastPeriod "durationBetweenPeriods::lastPeriod" ;;;
  if firstPeriod >? lastPeriod then
    Raise (IndexError_order firstPeriod lastPeriod)
  else
    Done (array_sum A
            (map duration
               (np_slice startingSequence (firstPeriod - 1) lastPeriod))).

Definition ampsAtPeriod (period : Z) : result (F A) :=
  checkPeriod period "ampsAtPeriod::period" ;;;
  r <- getitem startingSequence (period - 1) ;;
  Done (amps r).

Definition cycleAtPeriod (period : Z) : result Z :=
  checkPeriod period "cycleAtPeriod::period" ;;;
  r <- getitem startingSequence (period - 1) ;;
  Done (cycle r).

(** Body of the inner loop.  The verbose line is printed after the size is
    computed; in it only the two calls of [secToHMS] can raise. *)
Definition period_body (section : Z) (st : F A * list (F A)) (period : Z)
    : result (F A * list (F A)) :=
  let '(previousLoad, requiredSectionSizes) := st in
  load <- ampsAtPeriod period ;;
  let changeInLoad := fsub A load previousLoad in
  let previousLoad := load in
  r <- getitem startingSequence (period - 1) ;;
  let duration := duration r in
  durationToSectionEnd <- durationBetweenPeriods period section ;;
  let kt := ktFactorFunction durationToSectionEnd in
  let tempDeratingFactor := deratingFactorOnTemp testParams in
  let requiredSectionSize :=
    fmul A (fmul A changeInLoad kt) tempDeratingFactor in
  (if verbose testParams
   then secToHMS duration ;;; secToHMS durationToSectionEnd
   else Done tt) ;;;
  Done (previousLoad, requiredSectionSizes ++ [requiredSectionSize]).

Definition skip_test (section : Z) : result bool :=
  if section <? startingSequenceLength then
    a <- ampsAtPeriod section ;;
    b <- ampsAtPeriod (section + 1) ;;
    Done (flt A a b)
  else Done false.

Definition section_body (requiredSizesPerSection : list (F A)) (section : Z)
    : result (list (F A)) :=
  skip <- skip_test section ;;
  if skip : bool then Done requiredSizesPerSection
  else
    st <- for_each (py_range 1 (section + 1)) (fzero A, [])
            (period_body section) ;;
    let maxRequiredSectionSize := array_sum A (snd st) in
    Done (requiredSizesPerSection ++ [maxRequiredSectionSize]).

Definition sections_loop : result (list (F A)) :=
  for_each (py_range 1 (numberOfSections testParams + 1)) [] section_body.

(** [a.max()] *)
Definition np_max (a : list (F A)) : result (F A) :=
  match a with
  | [] => Raise ValueError_empty_max
  | _ :: _ => Done (array_max A a)
  end.

Definition aggregate (requiredSizesPerSection : list (F A))
    : result SizingReport :=
  cycleNb <- cycleAtPeriod (numberOfSections testParams) ;;
  maximumSectionSize <- np_max requiredSizesPerSection ;;
  let uncorrectedSize := fadd A maximumSectionSize (randomSize testParams) in
  let size :=
    fmul A (fmul A uncorrectedSize (designMargin testParams))
      (agingFactor testParams) in
  numberOfBatteriesRequired <-
    of_conversion
      (py_int A
         (fdiv A (fadd A (fmul A size (finalTolerance testParams))
                    (nominalCapacity testParams))
            (nominalCapacity testParams))) ;;
  Done (mkReport cycleNb maximumSectionSize uncorrectedSize size
          numberOfBatteriesRequired).

Definition process : result SizingReport :=
  checkPeriod (numberOfSections testParams) "testParams.numberOfSections" ;;;
  requiredSizesPerSection <- sections_loop ;;
  aggregate requiredSizesPerSection.

(** An exception of a conversion between integers and floats. *)
Definition numeric (e : exn) : Prop :=
  e = OverflowError \/ e = ValueError_nan.

End Script.

Arguments mkRow {A} _ _ _.
Arguments mkIEEE1115 {A} _ _ _ _ _ _ _ _.
Arguments duration {A} _.
Arguments amps {A} _.
Arguments cycle {A} _.
Arguments numberOfSections {A} _.
Arguments verbose {A} _.
Arguments startingSequenceLength {A} _.
Arguments checkPeriod {A} _ _ _.
Arguments durationBetweenPeriods {A} _ _ _.
Arguments ampsAtPeriod {A} _ _.
Arguments cycleAtPeriod {A} _ _.
Arguments period_body {A} _ _ _ _ _ _.
Arguments skip_test {A} _ _.
Arguments section_body {A} _ _ _ _ _.
Arguments sections_loop {A} _ _ _.
Arguments np_max {A} _.
Arguments aggregate {A} _ _ _.
Arguments process {A} _ _ _.

(** The rationals as an arithmetic, every conversion succeeding. *)
Definition rationals : arithmetic :=
  mkArithmetic Q Qplus Qminus Qmult Qdiv Qlt_bool 0%Q
    (fun a => fold_left Qplus a 0%Q)
    (fun a => fold_left (fun m y => if Qlt_bool m y then y else m) a
                (hd 0%Q a))
    (fun x => Converted (trunc x))
    (fun i j => Converted (inject_Z i / inject_Z j)%Q)
    (fun x i => Converted (x - inject_Z i)%Q)
    (fun _ => Converted tt).

Definition twoPeriods : list (row rationals) :=
  [mkRow (A := rationals) 5%Q 80%Q 1; mkRow (A := rationals) 10%Q 120%Q 1].

Definition params (sections : Z) (verb : bool) : IEEE1115 rationals :=
  mkIEEE1115 (A := rationals) 100%Q sections verb 1%Q 5%Q (11 # 10)%Q
    (12 # 10)%Q (9 # 10)%Q.

(** The integer [z] as a float, rounded to the nearest. *)
Definition float_of_Z (z : Z) : PrimFloat.float :=
  FloatOps.SF2Prim
    (SpecFloat.binary_normalize FloatOps.prec FloatOps.emax z 0 false).

(** [int(x)] on a binary64 float: truncation toward zero, [OverflowError] on
    an infinity, [ValueError] on a NaN. *)
Definition float_to_int (x : PrimFloat.float) : conversion Z :=
  match FloatOps.Prim2SF x with
  | SpecFloat.S754_zero _ => Converted 0
  | SpecFloat.S754_infinity _ => Overflow
  | SpecFloat.S754_nan => NotNumber
  | SpecFloat.S754_finite s m e =>
      let magnitude :=
        if 0 <=? e then Z.pos m * 2 ^ e else Z.pos m / 2 ^ (- e) in
      Converted (if s then - magnitude else magnitude)
  end.

Section Binary64.

(** The operations that mix integers and floats are used by [secToHMS]
    only, in verbose runs: they stay parameters of the instance. *)
Variable truediv : Z -> Z -> conversion PrimFloat.float.
Variable sub_int : PrimFloat.float -> Z -> conversion PrimFloat.float.
Variable fmt_int : Z -> conversion unit.

(** binary64, the arithmetic of the script.  The sum runs from left to
    right, as numpy's does on arrays shorter than eight; the maximum lets a
    NaN through, as numpy's does. *)
Definition binary64 : arithmetic :=
  mkArithmetic PrimFloat.float PrimFloat.add PrimFloat.sub PrimFloat.mul
    PrimFloat.div PrimFloat.ltb (float_of_Z 0)
    (fun a => fold_left PrimFloat.add a (float_of_Z 0))
    (fun a => fold_left
                (fun m y =>
                   if PrimFloat.is_nan y || PrimFloat.ltb m y then y else m)
                a (hd (float_of_Z 0) a))
    float_to_int truediv sub_int fmt_int.

Definition twoPeriods64 : list (row binary64) :=
  [mkRow (A := binary64) (float_of_Z 5) (float_of_Z 80) 1;
   mkRow (A := binary64) (float_of_Z 10) (float_of_Z 120) 1].

(** Nominal capacity 100, random size 5, design margin 1.1, aging factor
    1.2, tolerance 0.9, not verbose. *)
Definition params64 (sections : Z) : IEEE1115 binary64 :=
  mkIEEE1115 (A := binary64) (float_of_Z 100) sections false (float_of_Z 1)
    (float_of_Z 5)
    (PrimFloat.div (float_of_Z 11) (float_of_Z 10))
    (PrimFloat.div (float_of_Z 12) (float_of_Z 10))
    (PrimFloat.div (float_of_Z 9) (float_of_Z 10)).

(** Nominal capacity 10, random size 200, design margin 1.15, aging factor
    and tolerance 1. *)
Definition params64_margin : IEEE1115 binary64 :=
  mkIEEE1115 (A := binary64) (float_of_Z 10) 1 false (float_of_Z 1)
    (float_of_Z 200)
    (PrimFloat.div (float_of_Z 115) (float_of_Z 100))
    (float_of_Z 1) (float_of_Z 1).

End Binary64.

End Generic.

(** ** The script *)

Section Process.

Variable testParams : IEEE1115.
Variable startingSequence : list row.
Variable ampsByDurationFunction : Q -> Q.

Definition startingSequenceLength : Z := Z.of_nat (List.length startingSequence).

Definition ktFactorFunction (duration : Q) : npfloat :=
  np_true_divide (nominalCapacity testParams) (ampsByDurationFunction duration).

Definition checkPeriod (period : Z) (periodName : string) : outcome unit :=
  if (period <? 1) || (period >? startingSequenceLength) then
    Raise (IndexError_unfit periodName period)
  else Ok tt.

Definition durationBetweenPeriods (firstPeriod lastPeriod : Z) : outcome Q :=
  obind (checkPeriod firstPeriod "durationBetweenPeriods::firstPeriod") (fun _ =>
  obind (checkPeriod lastPeriod "durationBetweenPeriods::lastPeriod") (fun _ =>
  if firstPeriod >? lastPeriod then
    Raise (IndexError_order firstPeriod lastPeriod)
  else
    Ok (np_sum (map duration
                  (np_slice startingSequence (firstPeriod - 1) lastPeriod))))).

Definition ampsAtPeriod (period : Z) : outcome Q :=
  obind (checkPeriod period "ampsAtPeriod::period") (fun _ =>
  obind (np_getitem startingSequence (period - 1)) (fun r => Ok (amps r))).

Definition cycleAtPeriod (period : Z) : outcome Z :=
  obind (checkPeriod period "cycleAtPeriod::period") (fun _ =>
  obind (np_getitem startingSequence (period - 1)) (fun r => Ok (cycle r))).

Local Open Scope script_scope.

(** Body of the inner loop; the state is [previousLoad] and
    [requiredSectionSizes]. *)
Definition period_body (section : Z) (st : Q * list Q) (period : Z)
    : M (Q * list Q) :=
  let '(previousLoad, requiredSectionSizes) := st in
  load <- lift (ampsAtPeriod period) ;;
  let changeInLoad := (load - previousLoad)%Q in
  let previousLoad := load in
  r <- lift (np_getitem startingSequence (period - 1)) ;;
  let duration := duration r in
  durationToSectionEnd <- lift (durationBetweenPeriods period section) ;;
  kt <- lift (finite (ktFactorFunction durationToSectionEnd)) ;;
  let tempDeratingFactor := deratingFactorOnTemp testParams in
  let requiredSectionSize := (changeInLoad * kt * tempDeratingFactor)%Q in
  when (verbose testParams)
    (print (PeriodLine period load changeInLoad duration durationToSectionEnd
              kt tempDeratingFactor requiredSectionSize)) ;;;
  ret (previousLoad, requiredSectionSizes ++ [requiredSectionSize]).

(** The test of the outer loop's [if], with Python's short-circuit [and]. *)
Definition skip_test (section : Z) : outcome bool :=
  if section <? startingSequenceLength then
    obind (ampsAtPeriod section) (fun a =>
    obind (ampsAtPeriod (section + 1)) (fun b => Ok (Qlt_bool a b)))
  else Ok false.

(** Body of the outer loop; the state is [requiredSizesPerSection]. *)
Definition section_body (requiredSizesPerSection : list Q) (section : Z)
    : M (list Q) :=
  skip <- lift (skip_test section) ;;
  if skip : bool then
    when (verbose testParams) (print (SectionSkippedLine section)) ;;;
    ret requiredSizesPerSection
  else
    when (verbose testParams)
      (print (SectionLine section) ;;; print ColumnsLine) ;;;
    st <- for_each (py_range 1 (section + 1)) (0%Q, []) (period_body section) ;;
    let maxRequiredSectionSize := np_sum (snd st) in
    when (verbose testParams) (print (TotalLine maxRequiredSectionSize)) ;;;
    ret (requiredSizesPerSection ++ [maxRequiredSectionSize]).

Definition sections_loop : M (list Q) :=
  for_each (py_range 1 (numberOfSections testParams + 1)) [] section_body.

(** Lines 153 to 163. *)
Definition aggregate (requiredSizesPerSection : list Q) : M SizingReport :=
  cycleNb <- lift (cycleAtPeriod (numberOfSections testParams)) ;;
  print (ResultTestingLine cycleNb) ;;;
  maximumSectionSize <- lift (np_max requiredSizesPerSection) ;;
  let uncorrectedSize := (maximumSectionSize + randomSize testParams)%Q in
  print (MaximumSectionSizeLine maximumSectionSize (randomSize testParams)) ;;;
  print (UncorrectedSizeLine uncorrectedSize) ;;;
  let size :=
    (uncorrectedSize * designMargin testParams * agingFactor testParams)%Q in
  print (FactorsLine uncorrectedSize (designMargin testParams)
           (agingFactor testParams)) ;;;
  print (SizeLine size) ;;;
  numberOfBatteriesRequired <-
    lift (py_int (np_true_divide
                    (size * finalTolerance testParams
                     + nominalCapacity testParams)%Q
                    (nominalCapacity testParams))) ;;
  print (BatteriesLine numberOfBatteriesRequired (finalTolerance testParams)) ;;;
  ret (mkReport cycleNb maximumSectionSize uncorrectedSize size
         numberOfBatteriesRequired).

(** The calculation, from the check of [numberOfSections] (line 106) on. *)
Definition process : M SizingReport :=
  lift (checkPeriod (numberOfSections testParams) "testParams.numberOfSections") ;;;
  requiredSizesPerSection <- sections_loop ;;
  aggregate requiredSizesPerSection.

(** ** The sizing method in the words of its description

    Periods are numbered from 1; the load before the first period is 0. *)

Definition spec_periodCount : Z := Z.of_nat (List.length startingSequence).

Definition spec_periodAt (p : Z) : row :=
  nth (Z.to_nat (p - 1)) startingSequence (mkRow 0 0 0).

Definition spec_current (p : Z) : Q :=
  if p =? 0 then 0%Q else amps (spec_periodAt p).

(** Sum of [f p] for [p] from [lo] to [hi], both included. *)
Definition spec_sum (lo hi : Z) (f : Z -> Q) : Q :=
  fold_left (fun acc p => (acc + f p)%Q) (py_range lo (hi + 1)) 0%Q.

Definition spec_cumulativeDuration (first last : Z) : Q :=
  spec_sum first last (fun p => duration (spec_periodAt p)).

Definition spec_ktFactor (d : Q) : Q :=
  (nominalCapacity testParams / ampsByDurationFunction d)%Q.

Definition spec_changeInLoad (p : Z) : Q :=
  (spec_current p - spec_current (p - 1))%Q.

Definition spec_contribution (S p : Z) : Q :=
  (spec_changeInLoad p * spec_ktFactor (spec_cumulativeDuration p S)
   * deratingFactorOnTemp testParams)%Q.

Definition spec_sectionTotal (S : Z) : Q :=
  spec_sum 1 S (spec_contribution S).

Definition spec_skipped (S : Z) : bool :=
  (S <? spec_periodCount) && Qlt_bool (spec_current S) (spec_current (S + 1)).

(** The trace of an evaluated section, as the verbose script prints it. *)
Definition spec_traceLine (S p : Z) : line :=
  PeriodLine p (spec_current p) (spec_changeInLoad p)
    (duration (spec_periodAt p)) (spec_cumulativeDuration p S)
    (spec_ktFactor (spec_cumulativeDuration p S))
    (deratingFactorOnTemp testParams) (spec_contribution S p).

Definition spec_sectionTrace (S : Z) : list line :=
  [SectionLine S; ColumnsLine]
  ++ map (spec_traceLine S) (py_range 1 (S + 1))
  ++ [TotalLine (spec_sectionTotal S)].

(** The discharge curve is not zero at any duration section [S] looks up. *)
Definition curve_nonzero_on (S : Z) : Prop :=
  forall p, 1 <= p <= S ->
    ~ (ampsByDurationFunction (spec_cumulativeDuration p S) == 0)%Q.

(** The totals of the sections that are not skipped, in section order. *)
Definition spec_sectionTotals (n : Z) : list Q :=
  map spec_sectionTotal
    (filter (fun S => negb (spec_skipped S)) (py_range 1 (n + 1))).

(** Section [S] is skipped: the outer loop's body leaves the totals as they
    are and prints at most the notice. *)
Definition section_is_skipped (S : Z) : Prop :=
  forall (totals : list Q) (out : list line),
    section_body totals S out
    = (Ok totals,
       out ++ (if verbose testParams then [SectionSkippedLine S] else [])).

(** A run that fails on the empty maximum and has shown no line of the final
    report. *)
Definition fails_without_report (out : list line) : Prop :=
  fst (process out) = Raise ValueError_empty_max
  /\ existsb report_line (snd (process out)) = false.


(** The report for a maximum section size [m]. *)
Definition spec_report (m : Q) : SizingReport :=
  let u := (m + randomSize testParams)%Q in
  let sz := (u * designMargin testParams * agingFactor testParams)%Q in
  mkReport (cycle (spec_periodAt (numberOfSections testParams))) m u sz
    (trunc ((sz * finalTolerance testParams + nominalCapacity testParams)
            / nominalCapacity testParams)%Q).

Definition spec_reportLines (r : SizingReport) : list line :=
  [ResultTestingLine (cycleNb r);
   MaximumSectionSizeLine (maximumSectionSize r) (randomSize testParams);
   UncorrectedSizeLine (uncorrectedSize r);
   FactorsLine (uncorrectedSize r) (designMargin testParams)
     (agingFactor testParams);
   SizeLine (size r);
   BatteriesLine (numberOfBatteriesRequired r) (finalTolerance testParams)].

(** ** Basic facts: rationals, ranges, indexing *)

Lemma Qlt_bool_iff (x y : Q) : Qlt_bool x y = true <-> (x < y)%Q.
Proof. unfold Qlt_bool, Qlt. apply Z.ltb_lt. Qed.

Lemma Qlt_bool_false_iff (x y : Q) : Qlt_bool x y = false <-> (y <= x)%Q.
Proof. unfold Qlt_bool, Qle. rewrite Z.ltb_ge. reflexivity. Qed.

Lemma Qeq_bool_false_iff (x y : Q) : Qeq_bool x y = false <-> ~ (x == y)%Q.
Proof.
  split.
  - intros H E. apply Qeq_bool_iff in E. congruence.
  - intros H. destruct (Qeq_bool x y) eqn:E; [|reflexivity].
    apply Qeq_bool_iff in E. contradiction.
Qed.

Lemma np_true_divide_nonzero (a b : Q) :
  ~ (b == 0)%Q -> np_true_divide a b = Finite (a / b)%Q.
Proof.
  intros H. unfold np_true_divide.
  apply Qeq_bool_false_iff in H. rewrite H. reflexivity.
Qed.

Lemma np_true_divide_zero (a b : Q) :
  (b == 0)%Q ->
  np_true_divide a b = (if Qeq_bool a 0 then NotANumber else Infinite).
Proof.
  intros H. unfold np_true_divide.
  apply Qeq_bool_iff in H. rewrite H. reflexivity.
Qed.

Lemma trunc_spec (x : Q) : truncated_toward_zero x (trunc x).
Proof.
  destruct x as [a b]. unfold truncated_toward_zero, trunc, Qle, Qlt.
  cbn [Qnum Qden inject_Z Qplus Qminus Qopp Pos.mul].
  pose proof (Z.quot_rem' a (Z.pos b)) as E.
  assert (Hb : 0 < Z.pos b) by lia.
  revert E Hb.
  generalize (Z.pos b) as c. intros c.
  destruct (Z.lt_trichotomy a 0) as [Ha|[->|Ha]].
  - pose proof (fun h => Z.rem_bound_pos_neg a c h ltac:(lia)) as R.
    generalize dependent (Z.rem a c). generalize (a ÷ c).
    intros q r R E Hb. specialize (R Hb). split; intros H; split; nia.
  - intros _ Hb. rewrite Z.quot_0_l by lia. lia.
  - pose proof (Z.rem_bound_pos a c ltac:(lia)) as R.
    generalize dependent (Z.rem a c). generalize (a ÷ c).
    intros q r R E Hb. specialize (R Hb). split; intros H; split; nia.
Qed.

Lemma py_range_nil (lo hi : Z) : hi <= lo -> py_range lo hi = [].
Proof.
  intros H. unfold py_range.
  replace (Z.to_nat (hi - lo)) with 0%nat by lia. reflexivity.
Qed.

Lemma py_range_cons (lo hi : Z) :
  lo < hi -> py_range lo hi = lo :: py_range (lo + 1) hi.
Proof.
  intros H. unfold py_range.
  replace (Z.to_nat (hi - lo)) with (S (Z.to_nat (hi - (lo + 1)))) by lia.
  cbn [seq map]. f_equal; [lia|].
  rewrite <- seq_shift, map_map.
  apply map_ext. intros i. lia.
Qed.

Lemma py_range_snoc (lo hi : Z) :
  lo <= hi -> py_range lo (hi + 1) = py_range lo hi ++ [hi].
Proof.
  intros H. unfold py_range.
  replace (Z.to_nat (hi + 1 - lo)) with (Z.to_nat (hi - lo) + 1)%nat by lia.
  rewrite seq_app, map_app. cbn [seq map]. do 2 f_equal. lia.
Qed.

Lemma py_range_In (lo hi p : Z) : In p (py_range lo hi) <-> lo <= p < hi.
Proof.
  unfold py_range. rewrite in_map_iff. split.
  - intros [i [<- Hi]]. apply in_seq in Hi. lia.
  - intros H. exists (Z.to_nat (p - lo)). split; [lia|].
    apply in_seq. lia.
Qed.

Lemma np_getitem_in {A : Type} (a : list A) (i : Z) (d : A) :
  0 <= i < Z.of_nat (List.length a) ->
  np_getitem a i = Ok (nth (Z.to_nat i) a d).
Proof.
  intros H. unfold np_getitem.
  replace (i <? 0) with false by (symmetry; apply Z.ltb_ge; lia).
  replace (0 <=? i) with true by (symmetry; apply Z.leb_le; lia).
  replace (i <? Z.of_nat (List.length a)) with true
    by (symmetry; apply Z.ltb_lt; lia).
  cbn [andb].
  destruct (nth_error a (Z.to_nat i)) as [x|] eqn:E.
  - f_equal. symmetry. apply nth_error_nth. exact E.
  - apply nth_error_None in E. lia.
Qed.

Lemma firstn_skipn_range {A : Type} (a : list A) (d : A) (k s : nat) :
  (s + k <= List.length a)%nat ->
  firstn k (skipn s a) = map (fun i => nth i a d) (seq s k).
Proof.
  revert s. induction k as [|k IH]; intros s H.
  - reflexivity.
  - cbn [seq map]. rewrite <- IH by lia.
    clear IH. revert s H. induction a as [|x a IHa]; intros s H.
    + cbn [List.length] in H. lia.
    + destruct s as [|s].
      * reflexivity.
      * cbn [skipn nth]. apply IHa. cbn [List.length] in H. lia.
Qed.

Lemma seq_from (s k : nat) : seq s k = map (fun i => (s + i)%nat) (seq 0 k).
Proof.
  induction s as [|s IH].
  - symmetry. apply map_id.
  - rewrite <- seq_shift, IH, map_map. reflexivity.
Qed.

Lemma np_slice_range {A : Type} (a : list A) (d : A) (first last : Z) :
  1 <= first -> first <= last -> last <= Z.of_nat (List.length a) ->
  np_slice a (first - 1) last
  = map (fun p => nth (Z.to_nat (p - 1)) a d) (py_range first (last + 1)).
Proof.
  intros H1 H2 H3. unfold np_slice.
  replace (first - 1 <? 0) with false by (symmetry; apply Z.ltb_ge; lia).
  replace (last <? 0) with false by (symmetry; apply Z.ltb_ge; lia).
  rewrite !Z.min_l by lia.
  rewrite (firstn_skipn_range a d) by lia.
  unfold py_range. rewrite seq_from, !map_map.
  replace (Z.to_nat (last + 1 - first)) with (Z.to_nat (last - (first - 1)))
    by lia.
  apply map_ext. intros i. f_equal. lia.
Qed.

Lemma fold_left_Qplus_map {X : Type} (f : X -> Q) (l : list X) (z : Q) :
  fold_left Qplus (map f l) z = fold_left (fun acc p => (acc + f p)%Q) l z.
Proof.
  revert z. induction l as [|x l IH]; intros z; [reflexivity|].
  cbn [map fold_left]. apply IH.
Qed.

Lemma np_max_is_maximum (a : list Q) :
  a <> [] ->
  exists m, np_max a = Ok m /\ In m a /\ (forall t, In t a -> (t <= m)%Q).
Proof.
  destruct a as [|x t]; [congruence|]. intros _.
  cbn [np_max]. eexists. split; [reflexivity|].
  revert x. induction t as [|y t IH]; intros x.
  - cbn [fold_left]. split; [left; reflexivity|].
    intros z [<-|[]]. apply Qle_refl.
  - cbn [fold_left].
    destruct (Qlt_bool x y) eqn:E.
    + destruct (IH y) as [I U]. split.
      * destruct I as [I|I]; [right; left; exact I|right; right; exact I].
      * intros z [<-|[<-|Hz]].
        -- apply Qlt_bool_iff in E. apply Qle_trans with y.
           ++ apply Qlt_le_weak, E.
           ++ apply U. left. reflexivity.
        -- apply U. left. reflexivity.
        -- apply U. right. exact Hz.
    + destruct (IH x) as [I U]. split.
      * destruct I as [I|I]; [left; exact I|right; right; exact I].
      * intros z [<-|[<-|Hz]].
        -- apply U. left. reflexivity.
        -- apply Qlt_bool_false_iff in E. apply Qle_trans with x.
           ++ exact E.
           ++ apply U. left. reflexivity.
        -- apply U. right. exact Hz.
Qed.

(** ** The monad and the loops *)

Lemma when_print (b : bool) (l : line) (out : list line) :
  when b (print l) out = (Ok tt, out ++ (if b then [l] else [])).
Proof.
  destruct b; [reflexivity|]. unfold when, ret. rewrite app_nil_r. reflexivity.
Qed.

Lemma for_each_app {X St : Type} (xs ys : list X) (st : St)
    (body : St -> X -> M St) (out : list line) :
  for_each (xs ++ ys) st body out
  = bind (for_each xs st body) (fun st' => for_each ys st' body) out.
Proof.
  revert st out. induction xs as [|x xs IH]; intros st out.
  - reflexivity.
  - cbn [app for_each]. unfold bind.
    destruct (body st x out) as [[st'| e |] out'].
    + rewrite IH. reflexivity.
    + reflexivity.
    + reflexivity.
Qed.

Lemma bind_ok {A B : Type} (m : M A) (f : A -> M B) (out out' : list line)
    (a : A) :
  m out = (Ok a, out') -> bind m f out = f a out'.
Proof. intros E. unfold bind. rewrite E. reflexivity. Qed.

Lemma bind_raise {A B : Type} (m : M A) (f : A -> M B) (out out' : list line)
    (e : exn) :
  m out = (Raise e, out') -> bind m f out = (Raise e, out').
Proof. intros E. unfold bind. rewrite E. reflexivity. Qed.

Lemma bind_nonfinite {A B : Type} (m : M A) (f : A -> M B)
    (out out' : list line) :
  m out = (NonFinite, out') -> bind m f out = (NonFinite, out').
Proof. intros E. unfold bind. rewrite E. reflexivity. Qed.

Lemma lift_eq {A : Type} (o o' : outcome A) (out : list line) :
  o = o' -> lift o out = (o', out).
Proof. intros ->. reflexivity. Qed.

(** ** Lookups in range *)

Lemma checkPeriod_in (p : Z) (name : string) :
  1 <= p <= startingSequenceLength -> checkPeriod p name = Ok tt.
Proof.
  intros H. unfold checkPeriod.
  replace (p <? 1) with false by (symmetry; apply Z.ltb_ge; lia).
  replace (p >? startingSequenceLength) with false
    by (symmetry; rewrite Z.gtb_ltb; apply Z.ltb_ge; lia).
  reflexivity.
Qed.

Lemma checkPeriod_out (p : Z) (name : string) :
  p < 1 \/ p > startingSequenceLength ->
  checkPeriod p name = Raise (IndexError_unfit name p).
Proof.
  intros H. unfold checkPeriod.
  destruct (p <? 1) eqn:E1; [reflexivity|].
  destruct (p >? startingSequenceLength) eqn:E2; [reflexivity|].
  apply Z.ltb_ge in E1. rewrite Z.gtb_ltb in E2. apply Z.ltb_ge in E2. lia.
Qed.

Lemma getitem_period (p : Z) :
  1 <= p <= startingSequenceLength ->
  np_getitem startingSequence (p - 1) = Ok (spec_periodAt p).
Proof.
  intros H. unfold spec_periodAt. apply np_getitem_in.
  unfold startingSequenceLength in H. lia.
Qed.

Lemma spec_current_pos (p : Z) :
  1 <= p -> spec_current p = amps (spec_periodAt p).
Proof.
  intros H. unfold spec_current.
  replace (p =? 0) with false by (symmetry; apply Z.eqb_neq; lia).
  reflexivity.
Qed.

Lemma ampsAtPeriod_in (p : Z) :
  1 <= p <= startingSequenceLength -> ampsAtPeriod p = Ok (spec_current p).
Proof.
  intros H. unfold ampsAtPeriod.
  rewrite checkPeriod_in, getitem_period by exact H.
  cbn [obind]. rewrite spec_current_pos by lia. reflexivity.
Qed.

Lemma cycleAtPeriod_in (p : Z) :
  1 <= p <= startingSequenceLength ->
  cycleAtPeriod p = Ok (cycle (spec_periodAt p)).
Proof.
  intros H. unfold cycleAtPeriod.
  rewrite checkPeriod_in, getitem_period by exact H. reflexivity.
Qed.

Lemma durationBetweenPeriods_in (first last : Z) :
  1 <= first -> first <= last -> last <= startingSequenceLength ->
  durationBetweenPeriods first last = Ok (spec_cumulativeDuration first last).
Proof.
  intros H1 H2 H3. unfold durationBetweenPeriods.
  rewrite !checkPeriod_in by lia. cbn [obind].
  replace (first >? last) with false
    by (symmetry; rewrite Z.gtb_ltb; apply Z.ltb_ge; lia).
  f_equal. unfold np_sum, spec_cumulativeDuration, spec_sum, spec_periodAt.
  rewrite (np_slice_range startingSequence (mkRow 0 0 0)) by assumption.
  rewrite map_map. apply fold_left_Qplus_map.
Qed.

Lemma skip_test_in (S : Z) :
  1 <= S <= startingSequenceLength -> skip_test S = Ok (spec_skipped S).
Proof.
  intros H. unfold skip_test, spec_skipped, spec_periodCount.
  fold startingSequenceLength.
  destruct (S <? startingSequenceLength) eqn:E.
  - apply Z.ltb_lt in E. rewrite !ampsAtPeriod_in by lia. reflexivity.
  - reflexivity.
Qed.

(** ** One period, one section *)

Lemma period_body_eval (S p : Z) (prev : Q) (acc : list Q) (out : list line) :
  1 <= p <= S -> S <= startingSequenceLength ->
  period_body S (prev, acc) p out
  = match ktFactorFunction (spec_cumulativeDuration p S) with
    | Finite kt =>
        let size :=
          ((spec_current p - prev) * kt * deratingFactorOnTemp testParams)%Q in
        (Ok (spec_current p, acc ++ [size]),
         out ++ (if verbose testParams
                 then [PeriodLine p (spec_current p) (spec_current p - prev)%Q
                         (duration (spec_periodAt p))
                         (spec_cumulativeDuration p S) kt
                         (deratingFactorOnTemp testParams) size]
                 else []))
    | _ => (NonFinite, out)
    end.
Proof.
  intros Hp HS. unfold period_body, bind, lift.
  rewrite ampsAtPeriod_in, getitem_period, durationBetweenPeriods_in by lia.
  destruct (ktFactorFunction (spec_cumulativeDuration p S)) as [kt| |];
    cbn [finite]; try reflexivity.
  rewrite when_print. reflexivity.
Qed.

Lemma ktFactorFunction_nonzero (d : Q) :
  ~ (ampsByDurationFunction d == 0)%Q ->
  ktFactorFunction d = Finite (spec_ktFactor d).
Proof. intros H. apply np_true_divide_nonzero, H. Qed.

Lemma period_loop_eval (S : Z) (k : nat) :
  forall (lo : Z) (prev : Q) (acc : list Q) (out : list line),
    1 <= lo -> S <= startingSequenceLength -> lo + Z.of_nat k = S + 1 ->
    prev = spec_current (lo - 1) ->
    curve_nonzero_on S ->
    for_each (py_range lo (S + 1)) (prev, acc) (period_body S) out
    = (Ok (spec_current S,
           acc ++ map (spec_contribution S) (py_range lo (S + 1))),
       out ++ (if verbose testParams
               then map (spec_traceLine S) (py_range lo (S + 1))
               else [])).
Proof.
  induction k as [|k IH]; intros lo prev acc out Hlo HS Hk -> Hc.
  - rewrite py_range_nil by lia. cbn [for_each map]. unfold ret.
    replace (lo - 1) with S by lia.
    rewrite app_nil_r.
    destruct (verbose testParams); rewrite app_nil_r; reflexivity.
  - rewrite py_range_cons by lia. cbn [for_each map]. unfold bind.
    rewrite period_body_eval by lia.
    rewrite ktFactorFunction_nonzero by (apply Hc; lia).
    cbv beta iota zeta.
    rewrite (IH (lo + 1)) by (try assumption; try lia; f_equal; lia).
    rewrite <- !app_assoc. cbn [app].
    f_equal.
    destruct (verbose testParams); reflexivity.
Qed.

(** Whatever the curve, the inner loop ends with the sizes of the
    description or leaves the rationals; it never raises. *)
Lemma period_loop_cases (S : Z) (k : nat) :
  forall (lo : Z) (prev : Q) (acc : list Q) (out : list line),
    1 <= lo -> S <= startingSequenceLength -> lo + Z.of_nat k = S + 1 ->
    prev = spec_current (lo - 1) ->
    for_each (py_range lo (S + 1)) (prev, acc) (period_body S) out
    = (Ok (spec_current S,
           acc ++ map (spec_contribution S) (py_range lo (S + 1))),
       out ++ (if verbose testParams
               then map (spec_traceLine S) (py_range lo (S + 1))
               else []))
    \/ exists out',
        for_each (py_range lo (S + 1)) (prev, acc) (period_body S) out
        = (NonFinite, out').
Proof.
  induction k as [|k IH]; intros lo prev acc out Hlo HS Hk ->.
  - left. rewrite py_range_nil by lia. cbn [for_each map]. unfold ret.
    replace (lo - 1) with S by lia.
    rewrite app_nil_r.
    destruct (verbose testParams); rewrite app_nil_r; reflexivity.
  - rewrite py_range_cons by lia. cbn [for_each map]. unfold bind.
    rewrite period_body_eval by lia.
    destruct (Qeq_dec (ampsByDurationFunction (spec_cumulativeDuration lo S)) 0)
      as [Z0|NZ].
    + right. unfold ktFactorFunction. rewrite np_true_divide_zero by exact Z0.
      destruct (Qeq_bool (nominalCapacity testParams) 0); eexists; reflexivity.
    + rewrite ktFactorFunction_nonzero by exact NZ.
      cbv beta iota zeta.
      match goal with
      | |- context [for_each _ (_, ?a) _ ?o] =>
          destruct (IH (lo + 1) (spec_current lo) a o) as [E|[out' E]];
          [lia | exact HS | lia | f_equal; lia | | ]
      end.
      * left. rewrite E.
        rewrite <- !app_assoc. cbn [app]. f_equal.
        destruct (verbose testParams); reflexivity.
      * right. exists out'. exact E.
Qed.

Lemma checkPeriod_ok_inv (p : Z) (name : string) :
  checkPeriod p name = Ok tt -> 1 <= p <= startingSequenceLength.
Proof.
  unfold checkPeriod.
  destruct (p <? 1) eqn:E1; [discriminate|].
  destruct (p >? startingSequenceLength) eqn:E2; [discriminate|].
  intros _. apply Z.ltb_ge in E1. rewrite Z.gtb_ltb in E2.
  apply Z.ltb_ge in E2. lia.
Qed.

Lemma section_body_skipped (S : Z) (totals : list Q) (out : list line) :
  1 <= S <= startingSequenceLength -> spec_skipped S = true ->
  section_body totals S out
  = (Ok totals,
     out ++ (if verbose testParams then [SectionSkippedLine S] else [])).
Proof.
  intros HS Hk. unfold section_body.
  erewrite bind_ok by (apply lift_eq; rewrite skip_test_in, Hk by exact HS;
                       reflexivity).
  cbv beta iota.
  erewrite bind_ok by apply when_print. reflexivity.
Qed.

Lemma section_header_print (S : Z) (out : list line) :
  when (verbose testParams) (print (SectionLine S) ;;; print ColumnsLine) out
  = (Ok tt,
     out ++ (if verbose testParams then [SectionLine S; ColumnsLine] else [])).
Proof.
  destruct (verbose testParams); cbn [when].
  - unfold bind, print. rewrite <- app_assoc. reflexivity.
  - unfold ret. rewrite app_nil_r. reflexivity.
Qed.

Lemma section_output (S : Z) (out : list line) :
  ((out ++ (if verbose testParams then [SectionLine S; ColumnsLine] else []))
   ++ (if verbose testParams
       then map (spec_traceLine S) (py_range 1 (S + 1)) else []))
  ++ (if verbose testParams then [TotalLine (spec_sectionTotal S)] else [])
  = out ++ (if verbose testParams then spec_sectionTrace S else []).
Proof.
  unfold spec_sectionTrace.
  destruct (verbose testParams).
  - rewrite <- !app_assoc. reflexivity.
  - rewrite !app_nil_r. reflexivity.
Qed.

Lemma np_sum_contributions (S : Z) :
  np_sum ([] ++ map (spec_contribution S) (py_range 1 (S + 1)))
  = spec_sectionTotal S.
Proof. cbn [app]. apply fold_left_Qplus_map. Qed.

Lemma section_body_evaluated (S : Z) (totals : list Q) (out : list line) :
  1 <= S <= startingSequenceLength -> spec_skipped S = false ->
  curve_nonzero_on S ->
  section_body totals S out
  = (Ok (totals ++ [spec_sectionTotal S]),
     out ++ (if verbose testParams then spec_sectionTrace S else [])).
Proof.
  intros HS Hk Hc. unfold section_body.
  erewrite bind_ok by (apply lift_eq; rewrite skip_test_in, Hk by exact HS;
                       reflexivity).
  cbv beta iota.
  erewrite bind_ok by apply section_header_print.
  erewrite bind_ok
    by (apply (period_loop_eval S (Z.to_nat S) 1);
        try assumption; try lia; reflexivity).
  cbn [snd].
  erewrite bind_ok by apply when_print.
  unfold ret. rewrite np_sum_contributions, section_output. reflexivity.
Qed.

Lemma section_body_cases (S : Z) (totals : list Q) (out : list line) :
  1 <= S <= startingSequenceLength -> spec_skipped S = false ->
  section_body totals S out
  = (Ok (totals ++ [spec_sectionTotal S]),
     out ++ (if verbose testParams then spec_sectionTrace S else []))
  \/ exists out', section_body totals S out = (NonFinite, out').
Proof.
  intros HS Hk. unfold section_body.
  erewrite bind_ok by (apply lift_eq; rewrite skip_test_in, Hk by exact HS;
                       reflexivity).
  cbv beta iota.
  erewrite bind_ok by apply section_header_print.
  match goal with
  | |- context [for_each _ (_, ?a) _] =>
      destruct (period_loop_cases S (Z.to_nat S) 1 0%Q a
                  (out ++ (if verbose testParams
                           then [SectionLine S; ColumnsLine] else [])))
        as [E|[out' E]];
      [lia | lia | lia | reflexivity | | ]
  end.
  - left. erewrite bind_ok by exact E. cbn [snd].
    erewrite bind_ok by apply when_print.
    unfold ret. rewrite np_sum_contributions, section_output. reflexivity.
  - right. exists out'. erewrite bind_nonfinite by exact E. reflexivity.
Qed.

(** ** The outer loop *)

Lemma sections_all_skipped (l : list Z) :
  (forall S, In S l -> 1 <= S <= startingSequenceLength) ->
  (forall S, In S l -> spec_skipped S = true) ->
  forall (totals : list Q) (out : list line),
    for_each l totals section_body out
    = (Ok totals,
       out ++ (if verbose testParams then map SectionSkippedLine l else [])).
Proof.
  induction l as [|S l IH]; intros Hr Hs totals out.
  - cbn [for_each map]. unfold ret.
    destruct (verbose testParams); rewrite app_nil_r; reflexivity.
  - cbn [for_each map]. unfold bind.
    rewrite section_body_skipped by (auto using in_eq).
    rewrite IH by (intros; auto using in_cons).
    rewrite <- app_assoc.
    destruct (verbose testParams); reflexivity.
Qed.

Lemma sections_cases (l : list Z) :
  (forall S, In S l -> 1 <= S <= startingSequenceLength) ->
  forall (totals : list Q) (out : list line),
    (exists out',
        for_each l totals section_body out
        = (Ok (totals
               ++ map spec_sectionTotal
                    (filter (fun S => negb (spec_skipped S)) l)),
           out'))
    \/ exists out', for_each l totals section_body out = (NonFinite, out').
Proof.
  induction l as [|S l IH]; intros Hr totals out.
  - left. exists out. cbn [for_each filter map]. unfold ret.
    rewrite app_nil_r. reflexivity.
  - cbn [for_each filter]. unfold bind.
    assert (HS : 1 <= S <= startingSequenceLength) by auto using in_eq.
    assert (Hl : forall S', In S' l -> 1 <= S' <= startingSequenceLength)
      by (intros; auto using in_cons).
    destruct (spec_skipped S) eqn:Hk; cbn [negb].
    + rewrite section_body_skipped by assumption. apply IH, Hl.
    + destruct (section_body_cases S totals out HS Hk) as [E|[out' E]];
        rewrite E.
      * cbn [map]. 
        match goal with
        | |- context [for_each l ?t _ ?o] =>
            destruct (IH Hl t o) as [[o' E']|[o' E']]; rewrite E'
        end.
        -- left. exists o'. rewrite <- app_assoc. reflexivity.
        -- right. exists o'. reflexivity.
      * right. exists out'. reflexivity.
Qed.

Lemma sections_loop_cases (out : list line) :
  1 <= numberOfSections testParams <= startingSequenceLength ->
  (exists out',
      sections_loop out
      = (Ok (spec_sectionTotals (numberOfSections testParams)), out'))
  \/ exists out', sections_loop out = (NonFinite, out').
Proof.
  intros Hn. unfold sections_loop, spec_sectionTotals.
  apply (sections_cases (py_range 1 (numberOfSections testParams + 1))).
  intros S HS. apply py_range_In in HS. lia.
Qed.

(** ** The final aggregation *)

Lemma aggregate_eval (totals : list Q) (m : Q) (out : list line) :
  1 <= numberOfSections testParams <= startingSequenceLength ->
  np_max totals = Ok m ->
  aggregate totals out
  = let c := cycle (spec_periodAt (numberOfSections testParams)) in
    let u := (m + randomSize testParams)%Q in
    let sz := (u * designMargin testParams * agingFactor testParams)%Q in
    let shown :=
      out ++ [ResultTestingLine c;
              MaximumSectionSizeLine m (randomSize testParams);
              UncorrectedSizeLine u;
              FactorsLine u (designMargin testParams) (agingFactor testParams);
              SizeLine sz] in
    match py_int (np_true_divide
                    (sz * finalTolerance testParams
                     + nominalCapacity testParams)%Q
                    (nominalCapacity testParams)) with
    | Ok nb =>
        (Ok (mkReport c m u sz nb),
         shown ++ [BatteriesLine nb (finalTolerance testParams)])
    | Raise e => (Raise e, shown)
    | NonFinite => (NonFinite, shown)
    end.
Proof.
  intros Hn Hm. unfold aggregate, bind, lift, print, ret.
  rewrite cycleAtPeriod_in, Hm by exact Hn.
  cbv beta iota zeta.
  rewrite <- !app_assoc. cbn [app].
  destruct (py_int _); reflexivity.
Qed.

Lemma aggregate_empty (out : list line) :
  1 <= numberOfSections testParams <= startingSequenceLength ->
  aggregate [] out
  = (Raise ValueError_empty_max,
     out ++ [ResultTestingLine
               (cycle (spec_periodAt (numberOfSections testParams)))]).
Proof.
  intros Hn. unfold aggregate, bind, lift, print, ret.
  rewrite cycleAtPeriod_in by exact Hn. reflexivity.
Qed.

Lemma process_checked (out : list line) :
  1 <= numberOfSections testParams <= startingSequenceLength ->
  process out
  = bind sections_loop (fun t => aggregate t) out.
Proof.
  intros Hn. unfold process.
  erewrite bind_ok by (apply lift_eq, checkPeriod_in, Hn). reflexivity.
Qed.

Lemma spec_skipped_true_iff (S : Z) :
  spec_skipped S = true
  <-> S < spec_periodCount /\ (spec_current S < spec_current (S + 1))%Q.
Proof.
  unfold spec_skipped. rewrite andb_true_iff, Z.ltb_lt, Qlt_bool_iff.
  reflexivity.
Qed.

(** ** The properties of the sizing method *)

(** C1. A section [S] that is not skipped, with [1 <= S <= numberOfSections],
    gets as its total the sum over the periods [p = 1..S] of
    [(current p - current (p-1)) * (nominalCapacity / currentAt (cumulative
    duration from p to S)) * deratingFactorOnTemp], the load before period 1
    being 0 and a negative change of load being added as it is.  The total is
    appended to the totals, and the verbose script prints the trace of the
    section.  Where the curve is zero at one of the durations the division
    leaves the rationals; the body never raises. *)
Theorem section_total_superposition (S : Z) (totals : list Q) (out : list line) :
  checkPeriod (numberOfSections testParams) "testParams.numberOfSections"
  = Ok tt ->
  1 <= S <= numberOfSections testParams ->
  spec_skipped S = false ->
  let total :=
    spec_sum 1 S (fun p =>
      ((spec_current p - spec_current (p - 1))
       * (nominalCapacity testParams
          / ampsByDurationFunction (spec_cumulativeDuration p S))
       * deratingFactorOnTemp testParams)%Q) in
  let evaluated :=
    (Ok (totals ++ [total]),
     out ++ (if verbose testParams then spec_sectionTrace S else [])) in
  (curve_nonzero_on S -> section_body totals S out = evaluated)
  /\ (section_body totals S out = evaluated
      \/ exists out', section_body totals S out = (NonFinite, out')).
Proof.
  intros Hn HS Hk total evaluated.
  apply checkPeriod_ok_inv in Hn.
  assert (HS' : 1 <= S <= startingSequenceLength) by lia.
  split.
  - intros Hc. exact (section_body_evaluated S totals out HS' Hk Hc).
  - exact (section_body_cases S totals out HS' Hk).
Qed.

(** C2. A section [S] with [1 <= S <= numberOfSections] is skipped (its body
    leaves the totals unchanged and prints no total) if and only if
    [S < periodCount] and [current S < current (S+1)]; in particular a skipped
    section has [current S < current (S+1)].  The totals the outer loop ends
    with are those of the sections that are not skipped, one each. *)
Theorem skip_rule (S : Z) :
  checkPeriod (numberOfSections testParams) "testParams.numberOfSections"
  = Ok tt ->
  1 <= S <= numberOfSections testParams ->
  (section_is_skipped S
   <-> S < spec_periodCount /\ (spec_current S < spec_current (S + 1))%Q)
  /\ (section_is_skipped S -> (spec_current S < spec_current (S + 1))%Q)
  /\ (forall out,
         (exists out',
             sections_loop out
             = (Ok (map spec_sectionTotal
                      (filter (fun S' => negb (spec_skipped S'))
                         (py_range 1 (numberOfSections testParams + 1)))),
                out'))
         \/ exists out', sections_loop out = (NonFinite, out')).
Proof.
  intros Hn HS. apply checkPeriod_ok_inv in Hn.
  assert (HS' : 1 <= S <= startingSequenceLength) by lia.
  assert (Hiff : section_is_skipped S <-> spec_skipped S = true).
  { split.
    - intros Hskip. destruct (spec_skipped S) eqn:Hk; [reflexivity|].
      specialize (Hskip [] []).
      destruct (section_body_cases S [] [] HS' Hk) as [E|[out' E]];
        rewrite E in Hskip; discriminate.
    - intros Hk totals out. apply section_body_skipped; assumption. }
  split; [|split].
  - rewrite Hiff. apply spec_skipped_true_iff.
  - intros Hskip. apply Hiff, spec_skipped_true_iff in Hskip. apply Hskip.
  - intros out. apply sections_loop_cases. exact Hn.
Qed.

(** C3. Given section totals that are not empty (and a nominal capacity that
    is not zero), the aggregation takes the maximum of the totals, adds the
    random size to get the uncorrected size, multiplies by the design margin
    and the aging factor to get the size, and the number of batteries is
    [(size * finalTolerance + nominalCapacity) / nominalCapacity] truncated
    toward zero. *)
Theorem aggregate_formula (totals : list Q) (out : list line) :
  checkPeriod (numberOfSections testParams) "testParams.numberOfSections"
  = Ok tt ->
  totals <> [] ->
  ~ (nominalCapacity testParams == 0)%Q ->
  exists r,
    aggregate totals out
    = (Ok r,
       out ++ [ResultTestingLine (cycleNb r);
               MaximumSectionSizeLine (maximumSectionSize r)
                 (randomSize testParams);
               UncorrectedSizeLine (uncorrectedSize r);
               FactorsLine (uncorrectedSize r) (designMargin testParams)
                 (agingFactor testParams);
               SizeLine (size r);
               BatteriesLine (numberOfBatteriesRequired r)
                 (finalTolerance testParams)])
    /\ In (maximumSectionSize r) totals
    /\ (forall t, In t totals -> (t <= maximumSectionSize r)%Q)
    /\ uncorrectedSize r = (maximumSectionSize r + randomSize testParams)%Q
    /\ size r
       = (uncorrectedSize r * designMargin testParams
          * agingFactor testParams)%Q
    /\ truncated_toward_zero
         ((size r * finalTolerance testParams + nominalCapacity testParams)
          / nominalCapacity testParams)%Q
         (numberOfBatteriesRequired r)
    /\ cycleNb r = cycle (spec_periodAt (numberOfSections testParams)).
Proof.
  intros Hn Ht Hz. apply checkPeriod_ok_inv in Hn.
  destruct (np_max_is_maximum totals Ht) as [m [Hm [Hin Hub]]].
  rewrite (aggregate_eval totals m out Hn Hm). cbv zeta.
  rewrite np_true_divide_nonzero by exact Hz. cbn [py_int].
  rewrite <- app_assoc. cbn [app].
  match goal with |- exists _, (Ok ?r, _) = _ /\ _ => exists r end.
  cbn [maximumSectionSize uncorrectedSize size numberOfBatteriesRequired
         cycleNb].
  split; [reflexivity|].
  split; [exact Hin|].
  split; [exact Hub|].
  split; [reflexivity|].
  split; [reflexivity|].
  split; [apply trunc_spec|reflexivity].
Qed.

(** C4, as the script behaves.  When every section [1..numberOfSections] is
    skipped the run fails on the maximum of an empty array
    ([ValueError_empty_max]).  By then it has printed the skip notices (when
    verbose) and the first line of the result, the one with the tested cycle
    number; no size and no battery count is ever shown. *)
Theorem all_sections_skipped_fails (out : list line) :
  checkPeriod (numberOfSections testParams) "testParams.numberOfSections"
  = Ok tt ->
  (forall S, 1 <= S <= numberOfSections testParams -> spec_skipped S = true) ->
  process out
  = (Raise ValueError_empty_max,
     out
     ++ (if verbose testParams
         then map SectionSkippedLine
                (py_range 1 (numberOfSections testParams + 1))
         else [])
     ++ [ResultTestingLine
           (cycle (spec_periodAt (numberOfSections testParams)))]).
Proof.
  intros Hn Hs. apply checkPeriod_ok_inv in Hn.
  rewrite process_checked by exact Hn.
  erewrite bind_ok.
  2:{ unfold sections_loop. apply sections_all_skipped.
      - intros S HS. apply py_range_In in HS. lia.
      - intros S HS. apply py_range_In in HS. apply Hs. lia. }
  rewrite aggregate_empty by exact Hn.
  rewrite <- app_assoc. reflexivity.
Qed.

(** C5, as the script behaves.  [ktFactorFunction] is a plain numpy division
    and never fails: for a current that is not zero, positive or negative, it
    returns [nominalCapacity / currentAt d]; for a current of zero it returns
    an infinity or a NaN. *)
Theorem ktFactor_plain_division (d : Q) :
  (~ (ampsByDurationFunction d == 0)%Q ->
   ktFactorFunction d
   = Finite (nominalCapacity testParams / ampsByDurationFunction d)%Q)
  /\ ((ampsByDurationFunction d == 0)%Q ->
      ktFactorFunction d = Infinite \/ ktFactorFunction d = NotANumber).
Proof.
  split; intros H.
  - apply np_true_divide_nonzero, H.
  - unfold ktFactorFunction. rewrite np_true_divide_zero by exact H.
    destruct (Qeq_bool (nominalCapacity testParams) 0); [right|left];
      reflexivity.
Qed.

(** C6. For [1 <= first <= last <= periodCount] the cumulated duration is the
    sum of the durations of the periods [first..last], both included. *)
Theorem durationBetweenPeriods_sum (first last : Z) :
  1 <= first -> first <= last -> last <= startingSequenceLength ->
  durationBetweenPeriods first last
  = Ok (spec_sum first last (fun p => duration (spec_periodAt p))).
Proof.
  intros H1 H2 H3.
  exact (durationBetweenPeriods_in first last H1 H2 H3).
Qed.

(** C7. The current and cycle lookups and the cumulated duration raise the
    range [IndexError] for an index below 1 or above the number of periods
    (for the cumulated duration: the first bound is checked first, then the
    last); the cumulated duration raises the order [IndexError] for bounds in
    range with [first > last]. *)
Theorem lookups_reject_bad_periods (p first last : Z) :
  (p < 1 \/ p > startingSequenceLength ->
   ampsAtPeriod p = Raise (IndexError_unfit "ampsAtPeriod::period" p)
   /\ cycleAtPeriod p = Raise (IndexError_unfit "cycleAtPeriod::period" p))
  /\ (first < 1 \/ first > startingSequenceLength ->
      durationBetweenPeriods first last
      = Raise (IndexError_unfit "durationBetweenPeriods::firstPeriod" first))
  /\ (1 <= first <= startingSequenceLength ->
      last < 1 \/ last > startingSequenceLength ->
      durationBetweenPeriods first last
      = Raise (IndexError_unfit "durationBetweenPeriods::lastPeriod" last))
  /\ (1 <= first <= startingSequenceLength ->
      1 <= last <= startingSequenceLength ->
      first > last ->
      durationBetweenPeriods first last = Raise (IndexError_order first last)).
Proof.
  repeat split.
  - unfold ampsAtPeriod. rewrite checkPeriod_out by assumption. reflexivity.
  - unfold cycleAtPeriod. rewrite checkPeriod_out by assumption. reflexivity.
  - intros H. unfold durationBetweenPeriods.
    rewrite checkPeriod_out by assumption. reflexivity.
  - intros Hf Hl. unfold durationBetweenPeriods.
    rewrite checkPeriod_in by assumption. cbn [obind].
    rewrite checkPeriod_out by assumption. reflexivity.
  - intros Hf Hl Hgt. unfold durationBetweenPeriods.
    rewrite !checkPeriod_in by assumption. cbn [obind].
    replace (first >? last) with true
      by (symmetry; rewrite Z.gtb_ltb; apply Z.ltb_lt; lia).
    reflexivity.
Qed.

(** C9. A [numberOfSections] below 1 or above the number of periods is
    rejected by the check of line 106 before the loop starts: the run raises
    the range [IndexError] and has printed nothing, so no section total and
    no report. *)
Theorem numberOfSections_checked_first (out : list line) :
  numberOfSections testParams < 1
  \/ numberOfSections testParams > startingSequenceLength ->
  process out
  = (Raise (IndexError_unfit "testParams.numberOfSections"
              (numberOfSections testParams)),
     out).
Proof.
  intros H. unfold process.
  erewrite bind_raise by (apply lift_eq, checkPeriod_out, H). reflexivity.
Qed.

(** ** Further properties of the calculation *)






(** X3. With a nominal capacity of zero and totals that are not empty, the
    aggregation prints the sizes and then fails in [int()]: the division by
    zero gives a NaN when [size * finalTolerance] is zero ([ValueError]) and
    an infinity otherwise ([OverflowError]); no battery count is printed. *)
Theorem aggregate_zero_capacity (totals : list Q) (out : list line) :
  checkPeriod (numberOfSections testParams) "testParams.numberOfSections"
  = Ok tt ->
  totals <> [] ->
  (nominalCapacity testParams == 0)%Q ->
  exists m,
    np_max totals = Ok m
    /\ let r := spec_report m in
       aggregate totals out
       = (Raise (if Qeq_bool (size r * finalTolerance testParams
                              + nominalCapacity testParams) 0
                 then ValueError_nan else OverflowError_infinity),
          out ++ [ResultTestingLine (cycleNb r);
                  MaximumSectionSizeLine m (randomSize testParams);
                  UncorrectedSizeLine (uncorrectedSize r);
                  FactorsLine (uncorrectedSize r) (designMargin testParams)
                    (agingFactor testParams);
                  SizeLine (size r)]).
Proof.
  intros Hn Ht Hz. apply checkPeriod_ok_inv in Hn.
  destruct (np_max_is_maximum totals Ht) as [m [Hm _]].
  exists m. split; [exact Hm|]. cbv zeta.
  rewrite (aggregate_eval totals m out Hn Hm). cbv zeta.
  rewrite np_true_divide_zero by exact Hz.
  cbn [spec_report size cycleNb uncorrectedSize].
  destruct (Qeq_bool _ 0); reflexivity.
Qed.


Lemma trunc_nonneg (x : Q) : (0 <= x)%Q -> 0 <= trunc x.
Proof.
  intros H. destruct (trunc_spec x) as [P _]. destruct (P H) as [_ U].
  assert (L : (inject_Z (-1) < inject_Z (trunc x))%Q).
  { change (inject_Z (-1)) with (-1)%Q. lra. }
  rewrite <- Zlt_Qlt in L. lia.
Qed.

Lemma trunc_nonpos (x : Q) : (x <= 0)%Q -> trunc x <= 0.
Proof.
  intros H. destruct (trunc_spec x) as [_ N]. destruct (N H) as [L _].
  assert (U : (inject_Z (trunc x) < inject_Z 1)%Q).
  { change (inject_Z 1) with 1%Q. lra. }
  rewrite <- Zlt_Qlt in U. lia.
Qed.

Lemma trunc_monotone (x y : Q) : (x <= y)%Q -> trunc x <= trunc y.
Proof.
  intros H.
  destruct (Qlt_le_dec x 0) as [Hx|Hx].
  - destruct (Qlt_le_dec 0 y) as [Hy|Hy].
    + pose proof (trunc_nonpos x ltac:(lra)).
      pose proof (trunc_nonneg y ltac:(lra)). lia.
    + destruct (trunc_spec x) as [_ Nx]. destruct (Nx ltac:(lra)) as [Lx _].
      destruct (trunc_spec y) as [_ Ny]. destruct (Ny Hy) as [_ Uy].
      assert (L : (inject_Z (trunc x) < inject_Z (trunc y + 1))%Q).
      { rewrite inject_Z_plus. change (inject_Z 1) with 1%Q. lra. }
      rewrite <- Zlt_Qlt in L. lia.
  - destruct (trunc_spec x) as [Px _]. destruct (Px Hx) as [Lx _].
    destruct (trunc_spec y) as [Py _]. destruct (Py ltac:(lra)) as [_ Uy].
    assert (L : (inject_Z (trunc x) < inject_Z (trunc y + 1))%Q).
    { rewrite inject_Z_plus. change (inject_Z 1) with 1%Q. lra. }
    rewrite <- Zlt_Qlt in L. lia.
Qed.

Lemma cycleAtPeriod_out (p : Z) :
  p < 1 \/ p > startingSequenceLength ->
  cycleAtPeriod p = Raise (IndexError_unfit "cycleAtPeriod::period" p).
Proof.
  intros H. unfold cycleAtPeriod. rewrite checkPeriod_out by exact H.
  reflexivity.
Qed.

(** A report comes out of the aggregation only as the report of the maximum
    of the totals, with a nominal capacity that is not zero. *)
Lemma aggregate_ok_inv (totals : list Q) (out out' : list line)
    (r : SizingReport) :
  aggregate totals out = (Ok r, out') ->
  exists m,
    np_max totals = Ok m /\ r = spec_report m
    /\ ~ (nominalCapacity testParams == 0)%Q
    /\ 1 <= numberOfSections testParams <= startingSequenceLength.
Proof.
  intros E.
  destruct (Z_lt_le_dec (numberOfSections testParams) 1) as [Hlt|Hge];
    [|destruct (Z_lt_le_dec startingSequenceLength
                  (numberOfSections testParams)) as [Hgt|Hle]].
  - unfold aggregate in E.
    erewrite bind_raise in E
      by (apply lift_eq, cycleAtPeriod_out; left; exact Hlt).
    discriminate E.
  - unfold aggregate in E.
    erewrite bind_raise in E
      by (apply lift_eq, cycleAtPeriod_out; right; lia).
    discriminate E.
  - assert (Hn : 1 <= numberOfSections testParams <= startingSequenceLength)
      by lia.
    destruct totals as [|t ts].
    + rewrite aggregate_empty in E by exact Hn. discriminate E.
    + destruct (np_max_is_maximum (t :: ts) ltac:(discriminate))
        as [m [Hm _]].
      exists m. split; [exact Hm|].
      rewrite (aggregate_eval _ m out Hn Hm) in E. cbv zeta in E.
      destruct (Qeq_dec (nominalCapacity testParams) 0) as [Z0|NZ].
      * rewrite np_true_divide_zero in E by exact Z0.
        destruct (Qeq_bool _ 0) in E; discriminate E.
      * rewrite np_true_divide_nonzero in E by exact NZ.
        cbn [py_int] in E. injection E as <- _.
        split; [reflexivity|]. split; [exact NZ|exact Hn].
Qed.

(** X4. With the other parameters fixed (a positive nominal capacity, and a
    design margin, an aging factor and a tolerance that are not negative),
    a larger maximum section size never gives fewer batteries. *)
Theorem batteries_monotone (totals1 totals2 : list Q)
    (out1 out2 out1' out2' : list line) (r1 r2 : SizingReport) :
  (0 < nominalCapacity testParams)%Q ->
  (0 <= designMargin testParams)%Q ->
  (0 <= agingFactor testParams)%Q ->
  (0 <= finalTolerance testParams)%Q ->
  aggregate totals1 out1 = (Ok r1, out1') ->
  aggregate totals2 out2 = (Ok r2, out2') ->
  (maximumSectionSize r1 <= maximumSectionSize r2)%Q ->
  numberOfBatteriesRequired r1 <= numberOfBatteriesRequired r2.
Proof.
  intros Hnom Hdm Hag Htol E1 E2.
  destruct (aggregate_ok_inv _ _ _ _ E1) as [m1 [_ [-> _]]].
  destruct (aggregate_ok_inv _ _ _ _ E2) as [m2 [_ [-> _]]].
  cbn [spec_report maximumSectionSize numberOfBatteriesRequired].
  intros Hm. apply trunc_monotone.
  unfold Qdiv. apply Qmult_le_compat_r.
  2:{ apply Qinv_le_0_compat. lra. }
  apply Qplus_le_compat; [|lra].
  repeat (apply Qmult_le_compat_r; [|assumption]).
  lra.
Qed.

(** X5. When [size * finalTolerance] is not negative and the nominal
    capacity is positive, at least one battery is required. *)
Theorem batteries_at_least_one (totals : list Q) (out out' : list line)
    (r : SizingReport) :
  (0 < nominalCapacity testParams)%Q ->
  aggregate totals out = (Ok r, out') ->
  (0 <= size r * finalTolerance testParams)%Q ->
  1 <= numberOfBatteriesRequired r.
Proof.
  intros Hnom E.
  destruct (aggregate_ok_inv _ _ _ _ E) as [m [_ [-> _]]].
  cbn [spec_report size numberOfBatteriesRequired].
  set (st := ((m + randomSize testParams) * designMargin testParams
              * agingFactor testParams * finalTolerance testParams)%Q).
  set (nom := nominalCapacity testParams) in *.
  intros Hst.
  set (x := ((st + nom) / nom)%Q).
  assert (Hx1 : (1 <= x)%Q).
  { assert (Hd : (0 <= st / nom)%Q).
    { unfold Qdiv. apply Qmult_le_0_compat; [exact Hst|].
      apply Qinv_le_0_compat. lra. }
    assert (Hs : (x == st / nom + 1)%Q) by (unfold x; field; lra).
    lra. }
  change 1 with (trunc 1). apply trunc_monotone. exact Hx1.
Qed.

Lemma py_range_app (lo mid hi : Z) :
  lo <= mid -> mid <= hi ->
  py_range lo hi = py_range lo mid ++ py_range mid hi.
Proof.
  intros H1 H2.
  remember (Z.to_nat (hi - mid)) as k eqn:Hk.
  revert hi H2 Hk. induction k as [|k IH]; intros hi H2 Hk.
  - replace hi with mid by lia.
    rewrite (py_range_nil mid mid) by lia. rewrite app_nil_r. reflexivity.
  - replace hi with ((hi - 1) + 1) by lia.
    rewrite (py_range_snoc lo (hi - 1)) by lia.
    rewrite (py_range_snoc mid (hi - 1)) by lia.
    rewrite (IH (hi - 1)) by lia.
    rewrite app_assoc. reflexivity.
Qed.

Lemma fold_left_Qplus_acc {X : Type} (f : X -> Q) (l : list X) (a : Q) :
  (fold_left (fun acc p => acc + f p) l a
   == a + fold_left (fun acc p => acc + f p) l 0)%Q.
Proof.
  revert a. induction l as [|x l IH]; intros a.
  - cbn [fold_left]. ring.
  - cbn [fold_left]. rewrite (IH (a + f x)%Q), (IH (0 + f x)%Q). ring.
Qed.

(** X6. Moving the last bound of a cumulated duration one period further
    adds that period's duration; so, with durations that are not negative,
    the cumulated duration does not decrease as the last bound grows. *)
Theorem duration_extends (first last : Z) :
  1 <= first -> first <= last -> last + 1 <= startingSequenceLength ->
  exists d,
    durationBetweenPeriods first last = Ok d
    /\ durationBetweenPeriods first (last + 1)
       = Ok (d + duration (spec_periodAt (last + 1)))%Q
    /\ ((0 <= duration (spec_periodAt (last + 1)))%Q ->
        (d <= d + duration (spec_periodAt (last + 1)))%Q).
Proof.
  intros H1 H2 H3.
  exists (spec_cumulativeDuration first last).
  split; [apply durationBetweenPeriods_in; lia|].
  split.
  - rewrite durationBetweenPeriods_in by lia. f_equal.
    unfold spec_cumulativeDuration, spec_sum.
    rewrite (py_range_snoc first (last + 1)) by lia.
    rewrite fold_left_app. reflexivity.
  - intros Hd. lra.
Qed.

(** X7. The cumulated duration over a range is the sum of the cumulated
    durations over its two parts, cut after any period [mid]. *)
Theorem duration_splits (first mid last : Z) :
  1 <= first -> first <= mid -> mid < last ->
  last <= startingSequenceLength ->
  exists a b c,
    durationBetweenPeriods first mid = Ok a
    /\ durationBetweenPeriods (mid + 1) last = Ok b
    /\ durationBetweenPeriods first last = Ok c
    /\ (c == a + b)%Q.
Proof.
  intros H1 H2 H3 H4.
  exists (spec_cumulativeDuration first mid),
         (spec_cumulativeDuration (mid + 1) last),
         (spec_cumulativeDuration first last).
  split; [apply durationBetweenPeriods_in; lia|].
  split; [apply durationBetweenPeriods_in; lia|].
  split; [apply durationBetweenPeriods_in; lia|].
  unfold spec_cumulativeDuration, spec_sum.
  rewrite (py_range_app first (mid + 1) (last + 1)) by lia.
  rewrite fold_left_app. apply fold_left_Qplus_acc.
Qed.

Lemma fold_left_Qplus_ext {X : Type} (f g : X -> Q) (l : list X) :
  (forall p, f p == g p)%Q ->
  forall a b, (a == b)%Q ->
    (fold_left (fun acc p => acc + f p) l a
     == fold_left (fun acc p => acc + g p) l b)%Q.
Proof.
  intros Hfg. induction l as [|x l IH]; intros a b Hab.
  - exact Hab.
  - cbn [fold_left]. apply IH. rewrite Hab, (Hfg x). reflexivity.
Qed.

Lemma telescope (K : Q) (k : nat) :
  forall hi, 0 <= hi -> Z.of_nat k = hi ->
    (fold_left (fun acc p =>
                  acc + (spec_current p - spec_current (p - 1)) * K)
       (py_range 1 (hi + 1)) 0
     == spec_current hi * K)%Q.
Proof.
  induction k as [|k IH]; intros hi H0 Hk.
  - replace hi with 0 by lia. cbn. ring.
  - rewrite py_range_snoc by lia. rewrite fold_left_app. cbn [fold_left].
    replace hi with ((hi - 1) + 1) at 1 by lia.
    rewrite (IH (hi - 1)) by lia. ring.
Qed.

(** X8. With a discharge curve that gives the same current [c], not zero, at
    every duration, the changes of load telescope: the total of an evaluated
    section is its last load times [nominalCapacity / c] times the derating
    factor, whatever the loads before. *)
Theorem flat_curve_total (S : Z) (c : Q) (totals : list Q) (out : list line) :
  1 <= S <= startingSequenceLength ->
  spec_skipped S = false ->
  (forall d, ampsByDurationFunction d = c) ->
  ~ (c == 0)%Q ->
  exists t out',
    section_body totals S out = (Ok (totals ++ [t]), out')
    /\ (t == spec_current S * (nominalCapacity testParams / c)
             * deratingFactorOnTemp testParams)%Q.
Proof.
  intros HS Hk Hflat Hc.
  exists (spec_sectionTotal S). eexists. split.
  - apply section_body_evaluated; [exact HS|exact Hk|].
    intros p _. rewrite Hflat. exact Hc.
  - unfold spec_sectionTotal, spec_sum.
    rewrite (fold_left_Qplus_ext (spec_contribution S)
               (fun p => (spec_current p - spec_current (p - 1))
                         * (nominalCapacity testParams / c
                            * deratingFactorOnTemp testParams))%Q
               _ ltac:(intros p; unfold spec_contribution, spec_changeInLoad,
                         spec_ktFactor; rewrite Hflat; ring)
               0%Q 0%Q ltac:(reflexivity)).
    rewrite (telescope _ (Z.to_nat S)) by lia. ring.
Qed.

(** X9. With an empty starting sequence no [numberOfSections] is in range:
    every run ends on the range [IndexError], with nothing printed. *)
Theorem empty_sequence_rejected (out : list line) :
  startingSequence = [] ->
  process out
  = (Raise (IndexError_unfit "testParams.numberOfSections"
              (numberOfSections testParams)),
     out).
Proof.
  intros E. unfold process.
  erewrite bind_raise; [reflexivity|].
  apply lift_eq, checkPeriod_out.
  unfold startingSequenceLength. rewrite E. cbn [List.length Z.of_nat]. lia.
Qed.

End Process.

(** ** The properties at concrete inputs *)

Import Example.

Lemma curve_nonzero_dropping : curve_nonzero_on dropping curve 2.
Proof.
  intros p Hp E.
  assert (Hc : p = 1 \/ p = 2) by lia.
  destruct Hc as [-> | ->]; vm_compute in E; discriminate E.
Defined.

(** The load drops from 120 A to 80 A: the change of -40 A is added as it is. *)
Lemma section_total_superposition_witness :
  checkPeriod dropping 2 "testParams.numberOfSections" = Ok tt
  /\ 1 <= 2 <= 2
  /\ spec_skipped dropping 2 = false
  /\ curve_nonzero_on dropping curve 2
  /\ section_body (params 2 true) dropping curve [] 2 []
     = (Ok [(1317692732000 # 13611210930)%Q],
        [SectionLine 2; ColumnsLine;
         PeriodLine 1 120 120 5 15 (178021800 # 151235677) 1
           (21362616000 # 151235677);
         PeriodLine 2 80 (-40) 10 10 (100 # 90) 1 (-4000 # 90);
         TotalLine (1317692732000 # 13611210930)]).
Proof.
  split; [reflexivity|]. split; [lia|]. split; [reflexivity|].
  split; [exact curve_nonzero_dropping|].
  exact (proj1 (section_total_superposition (params 2 true) dropping curve
                  2 [] [] eq_refl ltac:(cbn; lia) eq_refl)
           curve_nonzero_dropping).
Defined.

Lemma skip_rule_witness :
  checkPeriod twoPeriods 2 "testParams.numberOfSections" = Ok tt
  /\ 1 <= 1 <= 2
  /\ (section_is_skipped (params 2 true) twoPeriods curve 1
      <-> 1 < spec_periodCount twoPeriods
          /\ (spec_current twoPeriods 1 < spec_current twoPeriods (1 + 1))%Q).
Proof.
  split; [reflexivity|]. split; [lia|].
  exact (proj1 (skip_rule (params 2 true) twoPeriods curve 1 eq_refl
                  ltac:(cbn; lia))).
Defined.

Lemma aggregate_formula_witness :
  checkPeriod twoPeriods 2 "testParams.numberOfSections" = Ok tt
  /\ [3; 7]%Q <> []
  /\ ~ (nominalCapacity (params 2 false) == 0)%Q
  /\ exists r,
       aggregate (params 2 false) twoPeriods [3; 7]%Q []
       = (Ok r,
          [] ++ [ResultTestingLine (cycleNb r);
                 MaximumSectionSizeLine (maximumSectionSize r)
                   (randomSize (params 2 false));
                 UncorrectedSizeLine (uncorrectedSize r);
                 FactorsLine (uncorrectedSize r) (designMargin (params 2 false))
                   (agingFactor (params 2 false));
                 SizeLine (size r);
                 BatteriesLine (numberOfBatteriesRequired r)
                   (finalTolerance (params 2 false))])
       /\ In (maximumSectionSize r) [3; 7]%Q.
Proof.
  assert (Hne : [3; 7]%Q <> []) by discriminate.
  assert (Hz : ~ (nominalCapacity (params 2 false) == 0)%Q)
    by (intros E; vm_compute in E; discriminate E).
  split; [reflexivity|]. split; [exact Hne|]. split; [exact Hz|].
  destruct (aggregate_formula (params 2 false) twoPeriods [3; 7]%Q []
              eq_refl Hne Hz) as [r [E [Hin _]]].
  exists r. split; [exact E|exact Hin].
Defined.

Lemma all_sections_skipped_fails_witness :
  checkPeriod twoPeriods 1 "testParams.numberOfSections" = Ok tt
  /\ (forall S, 1 <= S <= 1 -> spec_skipped twoPeriods S = true)
  /\ process (params 1 true) twoPeriods curve []
     = (Raise ValueError_empty_max,
        [SectionSkippedLine 1; ResultTestingLine 1]).
Proof.
  assert (Hs : forall S, 1 <= S <= 1 -> spec_skipped twoPeriods S = true).
  { intros S HS. replace S with 1 by lia. reflexivity. }
  split; [reflexivity|]. split; [exact Hs|].
  exact (all_sections_skipped_fails (params 1 true) twoPeriods curve []
           eq_refl Hs).
Defined.

(** A negative current gives a negative factor; a current of zero gives an
    infinity. *)
Lemma ktFactor_plain_division_witness :
  (~ (curve 1500 == 0)%Q
   /\ ktFactorFunction (params 2 false) curve 1500
      = Finite (nominalCapacity (params 2 false) / curve 1500)%Q)
  /\ (((fun d => d - 5) 5 == 0)%Q
      /\ (ktFactorFunction (params 2 false) (fun d => d - 5)%Q 5 = Infinite
          \/ ktFactorFunction (params 2 false) (fun d => d - 5)%Q 5
             = NotANumber)).
Proof.
  assert (Hnz : ~ (curve 1500 == 0)%Q)
    by (intros E; vm_compute in E; discriminate E).
  assert (Hz : ((fun d => d - 5) 5 == 0)%Q) by reflexivity.
  split.
  - split; [exact Hnz|].
    exact (proj1 (ktFactor_plain_division (params 2 false) curve 1500) Hnz).
  - split; [exact Hz|].
    exact (proj2 (ktFactor_plain_division (params 2 false)
                    (fun d => d - 5)%Q 5) Hz).
Defined.

Lemma durationBetweenPeriods_sum_witness :
  1 <= 1 /\ 1 <= 2 /\ 2 <= startingSequenceLength twoPeriods
  /\ durationBetweenPeriods twoPeriods 1 2 = Ok 15%Q.
Proof.
  assert (H3 : 2 <= startingSequenceLength twoPeriods)
    by (vm_compute; discriminate).
  split; [lia|]. split; [lia|]. split; [exact H3|].
  exact (durationBetweenPeriods_sum twoPeriods 1 2 ltac:(lia) ltac:(lia) H3).
Defined.

Lemma lookups_reject_bad_periods_witness :
  (ampsAtPeriod twoPeriods 3 = Raise (IndexError_unfit "ampsAtPeriod::period" 3)
   /\ cycleAtPeriod twoPeriods 3
      = Raise (IndexError_unfit "cycleAtPeriod::period" 3))
  /\ durationBetweenPeriods twoPeriods 0 5
     = Raise (IndexError_unfit "durationBetweenPeriods::firstPeriod" 0)
  /\ durationBetweenPeriods twoPeriods 1 3
     = Raise (IndexError_unfit "durationBetweenPeriods::lastPeriod" 3)
  /\ durationBetweenPeriods twoPeriods 2 1 = Raise (IndexError_order 2 1).
Proof.
  assert (Hlen : startingSequenceLength twoPeriods = 2) by reflexivity.
  split; [|split; [|split]].
  - apply (proj1 (lookups_reject_bad_periods twoPeriods 3 0 5)).
    right. rewrite Hlen. lia.
  - apply (proj1 (proj2 (lookups_reject_bad_periods twoPeriods 3 0 5))).
    left. lia.
  - apply (proj1 (proj2 (proj2 (lookups_reject_bad_periods twoPeriods 3 1 3)))).
    + rewrite Hlen. lia.
    + right. rewrite Hlen. lia.
  - apply (proj2 (proj2 (proj2 (lookups_reject_bad_periods twoPeriods 3 2 1)))).
    + rewrite Hlen. lia.
    + rewrite Hlen. lia.
    + lia.
Defined.

Lemma numberOfSections_checked_first_witness :
  (numberOfSections (params 3 true) < 1
   \/ numberOfSections (params 3 true) > startingSequenceLength twoPeriods)
  /\ process (params 3 true) twoPeriods curve []
     = (Raise (IndexError_unfit "testParams.numberOfSections" 3), []).
Proof.
  assert (H : numberOfSections (params 3 true) < 1
              \/ numberOfSections (params 3 true)
                 > startingSequenceLength twoPeriods)
    by (right; reflexivity).
  split; [exact H|].
  exact (numberOfSections_checked_first (params 3 true) twoPeriods curve [] H).
Defined.

(** The end-to-end scenario of the description: section 1 is skipped, section
    2 is evaluated with changes of load of 80 A and 40 A over 15 s and 10 s,
    and two batteries are required. *)
Example end_to_end_scenario :
  process (params 2 true) twoPeriods curve []
  = (Ok (mkReport 1 (1886699668000 # 13611210930)
           (1954755722650 # 13611210930) (258027755389800 # 1361121093000) 2),
     [SectionSkippedLine 1; SectionLine 2; ColumnsLine;
      PeriodLine 1 80 80 5 15 (178021800 # 151235677) 1
        (14241744000 # 151235677);
      PeriodLine 2 120 40 10 10 (100 # 90) 1 (4000 # 90);
      TotalLine (1886699668000 # 13611210930);
      ResultTestingLine 1;
      MaximumSectionSizeLine (1886699668000 # 13611210930) 5;
      UncorrectedSizeLine (1954755722650 # 13611210930);
      FactorsLine (1954755722650 # 13611210930) (11 # 10) (12 # 10);
      SizeLine (258027755389800 # 1361121093000);
      BatteriesLine 2 (9 # 10)]).
Proof. reflexivity. Qed.

(** With one section asked for and a load that rises, that section is
    skipped; the run fails on the empty maximum, but only after the line
    with the tested cycle number is out. *)
Lemma all_skipped_shows_cycle_line :
  (forall S, 1 <= S <= numberOfSections (params 1 false) ->
             spec_skipped twoPeriods S = true)
  /\ process (params 1 false) twoPeriods curve []
     = (Raise ValueError_empty_max, [ResultTestingLine 1])
  /\ ~ fails_without_report (params 1 false) twoPeriods curve [].
Proof.
  split; [|split].
  - intros S HS. cbn in HS. replace S with 1 by lia. reflexivity.
  - reflexivity.
  - intros [_ H]. vm_compute in H. discriminate H.
Qed.

(** At 1500 s the cubic through the four samples is negative; the factor is
    returned all the same, and a duty cycle that starts with such a period is
    sized without any failure. *)
Lemma ktFactor_negative_current_returns :
  (curve 1500 <= 0)%Q
  /\ ktFactorFunction (params 2 false) curve 1500
     = Finite (-89010900 # 5610381970)
  /\ exists r out, process (params 2 false) longFirst curve [] = (Ok r, out).
Proof.
  split; [|split].
  - vm_compute. discriminate.
  - reflexivity.
  - eexists. eexists. vm_compute. reflexivity.
Qed.

(** ** What the verbose flag changes *)








Section Verbose.

Variable testParams : IEEE1115.
Variable startingSequence : list row.
Variable ampsByDurationFunction : Q -> Q.
Variable b : bool.





End Verbose.

(** ** Periods after the sections asked for *)




Section Prefix.

Variable testParams : IEEE1115.
Variable startingSequence extra : list row.
Variable ampsByDurationFunction : Q -> Q.










End Prefix.

(** ** Time stamps *)

Lemma trunc_div_3600 (a : Z) : trunc (inject_Z a / 3600) = a ÷ 3600.
Proof. unfold trunc. cbn. rewrite Z.mul_1_r. reflexivity. Qed.

Lemma trunc_div_60 (a : Z) : trunc (inject_Z a / 60) = a ÷ 60.
Proof. unfold trunc. cbn. rewrite Z.mul_1_r. reflexivity. Qed.

Lemma secToHMS_fields (sec : Q) :
  secToHMS sec
  = (trunc sec ÷ 3600,
     (trunc sec mod 3600) ÷ 60,
     (sec - inject_Z (3600 * (trunc sec ÷ 3600))
      - inject_Z (60 * ((trunc sec mod 3600) ÷ 60)))%Q).
Proof.
  unfold secToHMS. cbv zeta. rewrite trunc_div_3600, trunc_div_60.
  reflexivity.
Qed.

(** X12. [secToHMS] always gives minutes in [0, 60) and fields that add up
    to the seconds it was given.  For seconds that are not negative it is the
    usual decomposition: hours not negative and seconds in [0, 60). *)
Theorem secToHMS_decomposes (sec : Q) :
  let '(h, m, s) := secToHMS sec in
  0 <= m < 60
  /\ (sec == inject_Z (h * 3600 + m * 60) + s)%Q
  /\ ((0 <= sec)%Q -> 0 <= h /\ (0 <= s)%Q /\ (s < 60)%Q).
Proof.
  rewrite secToHMS_fields.
  set (t := trunc sec).
  assert (Hm : 0 <= (t mod 3600) ÷ 60 < 60).
  { pose proof (Z.mod_pos_bound t 3600 ltac:(lia)) as Hr.
    rewrite Z.quot_div_nonneg by lia.
    split; [apply Z.div_pos; lia|apply Z.div_lt_upper_bound; lia]. }
  split; [exact Hm|]. split.
  - rewrite inject_Z_plus.
    replace (t ÷ 3600 * 3600) with (3600 * (t ÷ 3600)) by lia.
    replace (t mod 3600 ÷ 60 * 60) with (60 * (t mod 3600 ÷ 60)) by lia.
    ring.
  - intros H0.
    pose proof (trunc_nonneg sec H0) as Ht. fold t in Ht.
    destruct (trunc_spec sec) as [P _]. destruct (P H0) as [L U].
    fold t in L, U.
    rewrite (Z.quot_div_nonneg t 3600) by lia.
    pose proof (Z.mod_pos_bound t 3600 ltac:(lia)) as Hr.
    rewrite (Z.quot_div_nonneg (t mod 3600) 60) by lia.
    assert (Hz : 3600 * (t / 3600) + 60 * (t mod 3600 / 60) <= t
                 /\ t + 1 <= 3600 * (t / 3600) + 60 * (t mod 3600 / 60) + 60).
    { pose proof (Z.div_mod t 3600 ltac:(lia)).
      pose proof (Z.div_mod (t mod 3600) 60 ltac:(lia)).
      pose proof (Z.mod_pos_bound (t mod 3600) 60 ltac:(lia)). lia. }
    destruct Hz as [Hz1 Hz2].
    rewrite Zle_Qle, inject_Z_plus in Hz1.
    rewrite Zle_Qle, !inject_Z_plus in Hz2.
    change (inject_Z 60) with 60%Q in Hz2.
    change (inject_Z 1) with 1%Q in Hz2.
    split; [apply Z.div_pos; lia|]. split; lra.
Qed.

(** X13. For seconds that are negative the fields are not a decomposition
    any more: the hours are zero or negative, the minutes still lie in
    [0, 60) and the seconds field is zero or negative. *)
Theorem secToHMS_negative (sec : Q) :
  (sec <= 0)%Q ->
  let '(h, m, s) := secToHMS sec in
  h <= 0 /\ 0 <= m < 60 /\ (s <= 0)%Q.
Proof.
  intros H0. rewrite secToHMS_fields.
  set (t := trunc sec).
  pose proof (trunc_nonpos sec H0) as Ht. fold t in Ht.
  destruct (trunc_spec sec) as [_ N]. destruct (N H0) as [_ U]. fold t in U.
  pose proof (Z.mod_pos_bound t 3600 ltac:(lia)) as Hr.
  pose proof (Z.quot_rem' t 3600) as Hq.
  pose proof (Z.rem_bound_pos_neg t 3600 ltac:(lia) Ht) as Hrem.
  assert (Hm : 0 <= (t mod 3600) ÷ 60 < 60).
  { rewrite Z.quot_div_nonneg by lia.
    split; [apply Z.div_pos; lia|apply Z.div_lt_upper_bound; lia]. }
  split; [|split; [exact Hm|]].
  - apply Z.quot_le_upper_bound; lia.
  - assert (Hz : t <= 3600 * (t ÷ 3600) + 60 * (t mod 3600 ÷ 60)) by lia.
    rewrite Zle_Qle, inject_Z_plus in Hz. lra.
Qed.

Lemma split_colon_not_nil (s : string) : split_colon s <> [].
Proof.
  destruct s as [|c s]; cbn [split_colon]; [discriminate|].
  destruct (Ascii.eqb c ":"); [discriminate|].
  destruct (split_colon s); discriminate.
Qed.

Lemma split_colon_length (s : string) :
  List.length (split_colon s) = S (count_colons s).
Proof.
  unfold count_colons. induction s as [|c s IH].
  - reflexivity.
  - cbn [split_colon list_ascii_of_string filter].
    destruct (Ascii.eqb c ":").
    + cbn [List.length]. rewrite IH. reflexivity.
    + destruct (split_colon s) as [|x xs] eqn:E.
      * destruct (split_colon_not_nil s E).
      * cbn [List.length] in *. exact IH.
Qed.



Section GetSecFacts.

Variable py_int_of_str : string -> option Z.
Variable py_float_of_str : string -> option npfloat.

(** X14. [getSec] unpacks exactly three fields: a text whose number of
    colons is not two fails with the unpacking [ValueError], whatever its
    fields hold, and a text with two colons never fails that way. *)
Theorem getSec_needs_two_colons (timeStr : string) :
  (count_colons timeStr <> 2%nat ->
   getSec py_int_of_str py_float_of_str timeStr
   = GetSecError (ValueError_unpack (S (count_colons timeStr))))
  /\ (count_colons timeStr = 2%nat ->
      forall n,
        getSec py_int_of_str py_float_of_str timeStr
        <> GetSecError (ValueError_unpack n)).
Proof.
  pose proof (split_colon_length timeStr) as L. unfold getSec.
  destruct (split_colon timeStr) as [|h [|m [|s [|x xs]]]];
    cbn [List.length] in L; split; intros H; try lia;
    try (rewrite <- L; reflexivity).
  intros n.
  destruct (py_int_of_str h); [|discriminate].
  destruct (py_int_of_str m); [|discriminate].
  destruct (py_float_of_str s); discriminate.
Qed.


End GetSecFacts.

(** ** Loads that never drop *)

Lemma fold_left_Qplus_nonneg {X : Type} (f : X -> Q) (l : list X) :
  (forall p, In p l -> (0 <= f p)%Q) ->
  forall a, (0 <= a)%Q -> (0 <= fold_left (fun acc p => acc + f p) l a)%Q.
Proof.
  induction l as [|x l IH]; intros Hf a Ha.
  - exact Ha.
  - cbn [fold_left]. apply IH.
    + intros p Hp. apply Hf, in_cons, Hp.
    + pose proof (Hf x (in_eq x l)). lra.
Qed.

(** X16. With loads that never drop over the periods [1..S] (the first one
    not negative), a curve that is positive at the durations looked up, and
    a nominal capacity and a derating factor that are not negative, the
    total of an evaluated section is not negative. *)
Theorem section_total_nonneg (testParams : IEEE1115)
    (startingSequence : list row) (ampsByDurationFunction : Q -> Q)
    (S : Z) (totals : list Q) (out : list line) :
  1 <= S <= startingSequenceLength startingSequence ->
  spec_skipped startingSequence S = false ->
  (forall p, 1 <= p <= S ->
     (spec_current startingSequence (p - 1)
      <= spec_current startingSequence p)%Q) ->
  (forall p, 1 <= p <= S ->
     (0 < ampsByDurationFunction
            (spec_cumulativeDuration startingSequence p S))%Q) ->
  (0 <= nominalCapacity testParams)%Q ->
  (0 <= deratingFactorOnTemp testParams)%Q ->
  exists t out',
    section_body testParams startingSequence ampsByDurationFunction
      totals S out
    = (Ok (totals ++ [t]), out')
    /\ (0 <= t)%Q.
Proof.
  intros HS Hk Hload Hcurve Hnom Hder.
  exists (spec_sectionTotal testParams startingSequence
            ampsByDurationFunction S).
  eexists. split.
  - apply section_body_evaluated; [exact HS|exact Hk|].
    intros p Hp E. specialize (Hcurve p Hp). lra.
  - unfold spec_sectionTotal, spec_sum.
    apply fold_left_Qplus_nonneg; [|lra].
    intros p Hp. apply py_range_In in Hp.
    unfold spec_contribution, spec_changeInLoad, spec_ktFactor.
    apply Qmult_le_0_compat; [|exact Hder].
    apply Qmult_le_0_compat.
    + specialize (Hload p ltac:(lia)). lra.
    + unfold Qdiv. apply Qmult_le_0_compat; [exact Hnom|].
      apply Qinv_le_0_compat. specialize (Hcurve p ltac:(lia)). lra.
Qed.

(** ** The further properties at concrete inputs *)



Lemma aggregate_zero_capacity_witness :
  let zero := mkIEEE1115 0 2 false 1 5 (11 # 10) (12 # 10) (9 # 10) in
  checkPeriod twoPeriods (numberOfSections zero) "testParams.numberOfSections"
  = Ok tt
  /\ [3; 7]%Q <> []
  /\ (nominalCapacity zero == 0)%Q
  /\ fst (aggregate zero twoPeriods [3; 7]%Q []) = Raise OverflowError_infinity.
Proof.
  intros zero.
  assert (Hne : [3; 7]%Q <> []) by discriminate.
  assert (Hz : (nominalCapacity zero == 0)%Q) by reflexivity.
  split; [reflexivity|]. split; [exact Hne|]. split; [exact Hz|].
  destruct (aggregate_zero_capacity zero twoPeriods [3; 7]%Q [] eq_refl
              Hne Hz) as [m [Hm E]].
  injection Hm as <-. cbv zeta in E. rewrite E. reflexivity.
Defined.

Lemma batteries_monotone_witness :
  let p := params 2 false in
  let r1 := spec_report p twoPeriods 3 in
  let r2 := spec_report p twoPeriods 300 in
  (0 < nominalCapacity p)%Q
  /\ aggregate p twoPeriods [3]%Q [] = (Ok r1, spec_reportLines p r1)
  /\ aggregate p twoPeriods [3; 300]%Q [] = (Ok r2, spec_reportLines p r2)
  /\ (maximumSectionSize r1 <= maximumSectionSize r2)%Q
  /\ numberOfBatteriesRequired r1 <= numberOfBatteriesRequired r2.
Proof.
  intros p r1 r2.
  assert (E1 : aggregate p twoPeriods [3]%Q [] = (Ok r1, spec_reportLines p r1))
    by reflexivity.
  assert (E2 : aggregate p twoPeriods [3; 300]%Q []
               = (Ok r2, spec_reportLines p r2)) by reflexivity.
  assert (Hm : (maximumSectionSize r1 <= maximumSectionSize r2)%Q)
    by (vm_compute; discriminate).
  assert (Hnom : (0 < nominalCapacity p)%Q) by reflexivity.
  assert (Hdm : (0 <= designMargin p)%Q) by (vm_compute; discriminate).
  assert (Hag : (0 <= agingFactor p)%Q) by (vm_compute; discriminate).
  assert (Htol : (0 <= finalTolerance p)%Q) by (vm_compute; discriminate).
  split; [exact Hnom|]. split; [exact E1|]. split; [exact E2|].
  split; [exact Hm|].
  exact (batteries_monotone p twoPeriods [3]%Q [3; 300]%Q [] [] _ _ r1 r2
           Hnom Hdm Hag Htol E1 E2 Hm).
Defined.

Lemma batteries_at_least_one_witness :
  let p := params 2 false in
  let r := spec_report p twoPeriods 300 in
  (0 < nominalCapacity p)%Q
  /\ aggregate p twoPeriods [3; 300]%Q [] = (Ok r, spec_reportLines p r)
  /\ (0 <= size r * finalTolerance p)%Q
  /\ numberOfBatteriesRequired r = 4
  /\ 1 <= numberOfBatteriesRequired r.
Proof.
  intros p r.
  assert (E : aggregate p twoPeriods [3; 300]%Q []
              = (Ok r, spec_reportLines p r)) by reflexivity.
  assert (Hnom : (0 < nominalCapacity p)%Q) by reflexivity.
  assert (Hst : (0 <= size r * finalTolerance p)%Q)
    by (vm_compute; discriminate).
  split; [exact Hnom|]. split; [exact E|]. split; [exact Hst|].
  split; [reflexivity|].
  exact (batteries_at_least_one p twoPeriods [3; 300]%Q [] _ r Hnom E Hst).
Defined.

Lemma duration_extends_witness :
  1 <= 1 /\ 1 + 1 <= startingSequenceLength twoPeriods
  /\ exists d,
       durationBetweenPeriods twoPeriods 1 1 = Ok d
       /\ durationBetweenPeriods twoPeriods 1 (1 + 1)
          = Ok (d + duration (spec_periodAt twoPeriods (1 + 1)))%Q.
Proof.
  assert (H3 : 1 + 1 <= startingSequenceLength twoPeriods)
    by (vm_compute; discriminate).
  split; [lia|]. split; [exact H3|].
  destruct (duration_extends twoPeriods 1 1 ltac:(lia) ltac:(lia) H3)
    as [d [E1 [E2 _]]].
  exists d. split; [exact E1|exact E2].
Defined.

Lemma duration_splits_witness :
  1 <= 1 /\ 1 <= 2 /\ 2 < 4
  /\ 4 <= startingSequenceLength (dropping ++ twoPeriods)
  /\ exists a b c,
       durationBetweenPeriods (dropping ++ twoPeriods) 1 2 = Ok a
       /\ durationBetweenPeriods (dropping ++ twoPeriods) (2 + 1) 4 = Ok b
       /\ durationBetweenPeriods (dropping ++ twoPeriods) 1 4 = Ok c
       /\ (c == a + b)%Q.
Proof.
  assert (H4 : 4 <= startingSequenceLength (dropping ++ twoPeriods))
    by (vm_compute; discriminate).
  split; [lia|]. split; [lia|]. split; [lia|]. split; [exact H4|].
  exact (duration_splits (dropping ++ twoPeriods) 1 2 4
           ltac:(lia) ltac:(lia) ltac:(lia) H4).
Defined.

Lemma flat_curve_total_witness :
  1 <= 2 <= startingSequenceLength dropping
  /\ spec_skipped dropping 2 = false
  /\ ~ (50 == 0)%Q
  /\ exists t out',
       section_body (params 2 false) dropping (fun _ => 50%Q) [] 2 []
       = (Ok ([] ++ [t]), out')
       /\ (t == spec_current dropping 2
                * (nominalCapacity (params 2 false) / 50)
                * deratingFactorOnTemp (params 2 false))%Q.
Proof.
  assert (HS : 1 <= 2 <= startingSequenceLength dropping)
    by (split; vm_compute; discriminate).
  assert (Hc : ~ (50 == 0)%Q) by (intros E; vm_compute in E; discriminate E).
  split; [exact HS|]. split; [reflexivity|]. split; [exact Hc|].
  exact (flat_curve_total (params 2 false) dropping (fun _ => 50%Q) 2 50
           [] [] HS eq_refl (fun _ => eq_refl) Hc).
Defined.

Lemma empty_sequence_rejected_witness :
  process (params 1 true) [] curve []
  = (Raise (IndexError_unfit "testParams.numberOfSections" 1), []).
Proof.
  exact (empty_sequence_rejected (params 1 true) [] curve [] eq_refl).
Defined.


Lemma section_total_nonneg_witness :
  1 <= 2 <= startingSequenceLength twoPeriods
  /\ spec_skipped twoPeriods 2 = false
  /\ exists t out',
       section_body (params 2 false) twoPeriods curve [] 2 []
       = (Ok ([] ++ [t]), out')
       /\ (0 <= t)%Q.
Proof.
  assert (HS : 1 <= 2 <= startingSequenceLength twoPeriods)
    by (split; vm_compute; discriminate).
  split; [exact HS|]. split; [reflexivity|].
  apply (section_total_nonneg (params 2 false) twoPeriods curve 2 [] []
           HS eq_refl).
  - intros p Hp. assert (Hc : p = 1 \/ p = 2) by lia.
    destruct Hc as [-> | ->]; vm_compute; discriminate.
  - intros p Hp. assert (Hc : p = 1 \/ p = 2) by lia.
    destruct Hc as [-> | ->]; vm_compute; reflexivity.
  - vm_compute. discriminate.
  - vm_compute. discriminate.
Defined.

Lemma secToHMS_decomposes_witness :
  (0 <= 37255 # 10)%Q
  /\ secToHMS (37255 # 10) = (1, 2, 5.5%Q)
  /\ (0 <= 1 /\ (0 <= 5.5)%Q /\ (5.5 < 60)%Q).
Proof.
  assert (H0 : (0 <= 37255 # 10)%Q) by (vm_compute; discriminate).
  split; [exact H0|]. split; [reflexivity|].
  exact (proj2 (proj2 (secToHMS_decomposes (37255 # 10))) H0).
Defined.

Lemma secToHMS_negative_witness :
  (-7 # 2 <= 0)%Q
  /\ secToHMS (-7 # 2) = (0, 59, -7087 # 2)
  /\ (0 <= 0 /\ 0 <= 59 < 60 /\ (-7087 # 2 <= 0)%Q).
Proof.
  assert (H0 : (-7 # 2 <= 0)%Q) by (vm_compute; discriminate).
  split; [exact H0|]. split; [reflexivity|].
  exact (secToHMS_negative (-7 # 2) H0).
Defined.

Lemma getSec_needs_two_colons_witness :
  count_colons "12:30" <> 2%nat
  /\ getSec (fun _ => None) (fun _ => None) "12:30"
     = GetSecError (ValueError_unpack 2)
  /\ count_colons "1:2:3" = 2%nat
  /\ getSec (fun _ => None) (fun _ => None) "1:2:3"
     <> GetSecError (ValueError_unpack 3).
Proof.
  assert (H1 : count_colons "12:30" <> 2%nat) by discriminate.
  assert (H2 : count_colons "1:2:3" = 2%nat) by reflexivity.
  split; [exact H1|]. split.
  - exact (proj1 (getSec_needs_two_colons (fun _ => None) (fun _ => None)
                    "12:30") H1).
  - split; [exact H2|].
    exact (proj2 (getSec_needs_two_colons (fun _ => None) (fun _ => None)
                    "1:2:3") H2 3%nat).
Defined.


(** ** The control flow for any arithmetic: what can be raised, and when *)

Module GenericFacts.

Import Generic.
Local Open Scope generic_scope.

Section Facts.

Variable A : arithmetic.
Variable testParams : IEEE1115 A.
Variable startingSequence : list (row A).
Variable ampsByDurationFunction : F A -> F A.

Lemma checkPeriod_passes (p : Z) (name : string) :
  1 <= p <= startingSequenceLength startingSequence ->
  checkPeriod startingSequence p name = Done tt.
Proof.
  intros H. unfold checkPeriod.
  replace (p <? 1) with false by (symmetry; apply Z.ltb_ge; lia).
  replace (p >? startingSequenceLength startingSequence) with false
    by (symmetry; rewrite Z.gtb_ltb; apply Z.ltb_ge; lia).
  reflexivity.
Qed.

Lemma checkPeriod_raises (p : Z) (name : string) :
  p < 1 \/ p > startingSequenceLength startingSequence ->
  checkPeriod startingSequence p name = Raise (IndexError_unfit name p).
Proof.
  intros H. unfold checkPeriod.
  destruct (p <? 1) eqn:E1; [reflexivity|].
  destruct (p >? startingSequenceLength startingSequence) eqn:E2;
    [reflexivity|].
  apply Z.ltb_ge in E1. rewrite Z.gtb_ltb in E2. apply Z.ltb_ge in E2. lia.
Qed.

Lemma getitem_in {X : Type} (a : list X) (i : Z) :
  0 <= i < Z.of_nat (List.length a) -> exists x, getitem a i = Done x.
Proof.
  intros H. unfold getitem.
  replace (i <? 0) with false by (symmetry; apply Z.ltb_ge; lia).
  replace (0 <=? i) with true by (symmetry; apply Z.leb_le; lia).
  replace (i <? Z.of_nat (List.length a)) with true
    by (symmetry; apply Z.ltb_lt; lia).
  cbn [andb].
  destruct (nth_error a (Z.to_nat i)) as [x|] eqn:E.
  - exists x. reflexivity.
  - apply nth_error_None in E. lia.
Qed.

Lemma getitem_row (p : Z) :
  1 <= p <= startingSequenceLength startingSequence ->
  exists r, getitem startingSequence (p - 1) = Done r.
Proof.
  intros H. apply getitem_in. unfold startingSequenceLength in H. lia.
Qed.

Lemma ampsAtPeriod_returns (p : Z) :
  1 <= p <= startingSequenceLength startingSequence ->
  exists x, ampsAtPeriod startingSequence p = Done x.
Proof.
  intros H. unfold ampsAtPeriod. rewrite checkPeriod_passes by exact H.
  destruct (getitem_row p H) as [r E]. rewrite E.
  exists (amps r). reflexivity.
Qed.

Lemma cycleAtPeriod_returns (p : Z) :
  1 <= p <= startingSequenceLength startingSequence ->
  exists c, cycleAtPeriod startingSequence p = Done c.
Proof.
  intros H. unfold cycleAtPeriod. rewrite checkPeriod_passes by exact H.
  destruct (getitem_row p H) as [r E]. rewrite E.
  exists (cycle r). reflexivity.
Qed.

Lemma durationBetweenPeriods_returns (first last : Z) :
  1 <= first -> first <= last ->
  last <= startingSequenceLength startingSequence ->
  exists d, durationBetweenPeriods startingSequence first last = Done d.
Proof.
  intros H1 H2 H3. unfold durationBetweenPeriods.
  rewrite !checkPeriod_passes by lia. cbn [rbind].
  replace (first >? last) with false
    by (symmetry; rewrite Z.gtb_ltb; apply Z.ltb_ge; lia).
  eexists. reflexivity.
Qed.

Lemma skip_test_returns (S : Z) :
  1 <= S <= startingSequenceLength startingSequence ->
  exists b, skip_test startingSequence S = Done b.
Proof.
  intros H. unfold skip_test.
  destruct (S <? startingSequenceLength startingSequence) eqn:E.
  - apply Z.ltb_lt in E.
    destruct (ampsAtPeriod_returns S ltac:(lia)) as [a Ea].
    destruct (ampsAtPeriod_returns (S + 1) ltac:(lia)) as [b Eb].
    rewrite Ea, Eb. eexists. reflexivity.
  - exists false. reflexivity.
Qed.

Lemma skip_test_last (S : Z) :
  startingSequenceLength startingSequence <= S ->
  skip_test startingSequence S = Done false.
Proof.
  intros H. unfold skip_test.
  replace (S <? startingSequenceLength startingSequence) with false
    by (symmetry; apply Z.ltb_ge; lia).
  reflexivity.
Qed.

(** A script that returns, or raises a numeric exception. *)
Ltac numeric_raise :=
  right; eexists; split; [|reflexivity];
  ((left; reflexivity) || (right; reflexivity)).

Lemma secToHMS_cases (sec : F A) :
  secToHMS A sec = Done tt
  \/ exists e, numeric e /\ secToHMS A sec = Raise e.
Proof.
  unfold secToHMS.
  repeat match goal with
         | |- context [of_conversion ?c] =>
             destruct c; cbn [of_conversion rbind]; [|numeric_raise..]
         end.
  left. reflexivity.
Qed.

Lemma period_body_cases (S p : Z) (st : F A * list (F A)) :
  1 <= p <= S -> S <= startingSequenceLength startingSequence ->
  (exists load x,
      period_body testParams startingSequence ampsByDurationFunction S st p
      = Done (load, snd st ++ [x]))
  \/ (verbose testParams = true
      /\ exists e,
           numeric e
           /\ period_body testParams startingSequence ampsByDurationFunction
                S st p
              = Raise e).
Proof.
  intros Hp HS. destruct st as [prev acc]. unfold period_body.
  destruct (ampsAtPeriod_returns p ltac:(lia)) as [load El]. rewrite El.
  destruct (getitem_row p ltac:(lia)) as [r Er]. rewrite Er.
  destruct (durationBetweenPeriods_returns p S ltac:(lia) ltac:(lia) HS)
    as [d Ed]. rewrite Ed.
  cbn [rbind snd].
  destruct (verbose testParams).
  - destruct (secToHMS_cases (duration r)) as [E1|[e [Hn E1]]]; rewrite E1;
      cbn [rbind].
    + destruct (secToHMS_cases d) as [E2|[e [Hn E2]]]; rewrite E2;
        cbn [rbind].
      * left. eexists. eexists. reflexivity.
      * right. split; [reflexivity|]. exists e. split; [exact Hn|reflexivity].
    + right. split; [reflexivity|]. exists e. split; [exact Hn|reflexivity].
  - left. eexists. eexists. reflexivity.
Qed.

Lemma period_loop_outcomes (S : Z) (ps : list Z) :
  S <= startingSequenceLength startingSequence ->
  (forall p, In p ps -> 1 <= p <= S) ->
  forall st,
    (exists st',
        for_each ps st
          (period_body testParams startingSequence ampsByDurationFunction S)
        = Done st')
    \/ (verbose testParams = true
        /\ exists e,
             numeric e
             /\ for_each ps st
                  (period_body testParams startingSequence
                     ampsByDurationFunction S)
                = Raise e).
Proof.
  intros HS. induction ps as [|p ps IH]; intros Hp st.
  - left. exists st. reflexivity.
  - cbn [for_each].
    destruct (period_body_cases S p st (Hp p (in_eq p ps)) HS)
      as [[load [x E]]|[V [e [Hn E]]]]; rewrite E; cbn [rbind].
    + apply IH. intros q Hq. apply Hp, in_cons, Hq.
    + right. split; [exact V|]. exists e. split; [exact Hn|reflexivity].
Qed.

Lemma section_body_outcomes (S : Z) (totals : list (F A)) :
  1 <= S <= startingSequenceLength startingSequence ->
  (skip_test startingSequence S = Done true
   /\ section_body testParams startingSequence ampsByDurationFunction totals S
      = Done totals)
  \/ (skip_test startingSequence S = Done false
      /\ ((exists t,
              section_body testParams startingSequence ampsByDurationFunction
                totals S
              = Done (totals ++ [t]))
          \/ (verbose testParams = true
              /\ exists e,
                   numeric e
                   /\ section_body testParams startingSequence
                        ampsByDurationFunction totals S
                      = Raise e))).
Proof.
  intros HS. unfold section_body.
  destruct (skip_test_returns S HS) as [[|] Eb]; rewrite Eb; cbn [rbind].
  - left. split; reflexivity.
  - right. split; [reflexivity|].
    destruct (period_loop_outcomes S (py_range 1 (S + 1)) ltac:(lia)
                ltac:(intros p Hp; apply py_range_In in Hp; lia)
                (fzero A, []))
      as [[st' E]|[V [e [Hn E]]]]; rewrite E; cbn [rbind].
    + left. eexists. reflexivity.
    + right. split; [exact V|]. exists e. split; [exact Hn|reflexivity].
Qed.

(** The outer loop over sections in range: it appends one total per section
    whose skip test is false and none for the others, or the verbose line
    raises. *)
Lemma sections_outcomes (l : list Z) :
  (forall S, In S l -> 1 <= S <= startingSequenceLength startingSequence) ->
  forall totals,
    (exists extra,
        for_each l totals
          (section_body testParams startingSequence ampsByDurationFunction)
        = Done (totals ++ extra)
        /\ (extra = [] ->
            forall S, In S l -> skip_test startingSequence S = Done true)
        /\ (forall S, In S l -> skip_test startingSequence S = Done false ->
                      extra <> []))
    \/ (verbose testParams = true
        /\ exists e,
             numeric e
             /\ for_each l totals
                  (section_body testParams startingSequence
                     ampsByDurationFunction)
                = Raise e).
Proof.
  induction l as [|S l IH]; intros Hr totals.
  - left. exists []. rewrite app_nil_r. split; [reflexivity|].
    split; intros; contradiction.
  - cbn [for_each].
    assert (Hl : forall S', In S' l ->
                   1 <= S' <= startingSequenceLength startingSequence)
      by (intros; apply Hr, in_cons; assumption).
    destruct (section_body_outcomes S totals (Hr S (in_eq S l)))
      as [[Eb E]|[Eb [[t E]|[V [e [Hn E]]]]]]; rewrite E; cbn [rbind].
    + destruct (IH Hl totals) as [[extra [E' [H1 H2]]]|R]; [|right; exact R].
      left. exists extra. split; [exact E'|]. split.
      * intros He S' [<-|Hin]; [exact Eb|exact (H1 He S' Hin)].
      * intros S' [<-|Hin] Hf; [congruence|exact (H2 S' Hin Hf)].
    + destruct (IH Hl (totals ++ [t])) as [[extra [E' _]]|R];
        [|right; exact R].
      left. exists (t :: extra). split.
      * rewrite E', <- app_assoc. reflexivity.
      * split; [discriminate|]. intros; discriminate.
    + right. split; [exact V|]. exists e. split; [exact Hn|reflexivity].
Qed.

Lemma sections_loop_outcomes :
  1 <= numberOfSections testParams
  <= startingSequenceLength startingSequence ->
  (exists totals,
      sections_loop testParams startingSequence ampsByDurationFunction
      = Done totals
      /\ (totals = [] ->
          forall S, 1 <= S <= numberOfSections testParams ->
                    skip_test startingSequence S = Done true)
      /\ (forall S, 1 <= S <= numberOfSections testParams ->
                    skip_test startingSequence S = Done false ->
                    totals <> []))
  \/ (verbose testParams = true
      /\ exists e,
           numeric e
           /\ sections_loop testParams startingSequence ampsByDurationFunction
              = Raise e).
Proof.
  intros Hn. unfold sections_loop.
  destruct (sections_outcomes (py_range 1 (numberOfSections testParams + 1))
              ltac:(intros S HS; apply py_range_In in HS; lia) [])
    as [[extra [E [H1 H2]]]|R]; [|right; exact R].
  left. exists extra. cbn [app] in E. split; [exact E|]. split.
  - intros He S HS. apply (H1 He). apply py_range_In. lia.
  - intros S HS Hf. apply (H2 S); [apply py_range_In; lia|exact Hf].
Qed.

Lemma aggregate_cases (totals : list (F A)) :
  1 <= numberOfSections testParams
  <= startingSequenceLength startingSequence ->
  totals <> [] ->
  (exists r, aggregate testParams startingSequence totals = Done r)
  \/ exists e,
       numeric e /\ aggregate testParams startingSequence totals = Raise e.
Proof.
  intros Hn Ht. unfold aggregate.
  destruct (cycleAtPeriod_returns _ Hn) as [c Ec]. rewrite Ec. cbn [rbind].
  destruct totals as [|t ts]; [congruence|]. cbn [np_max rbind].
  match goal with
  | |- context [of_conversion ?c] =>
      destruct c; cbn [of_conversion rbind]; [|numeric_raise..]
  end.
  left. eexists. reflexivity.
Qed.

(** C10. For a section [S >= periodCount] the skip test is false, whatever
    the loads, so the section is evaluated.  Hence with
    [numberOfSections = periodCount] the loop over the sections ends with
    totals that are not empty (unless a verbose line raised on the way, in a
    conversion between integers and floats), and the run never fails on the
    maximum of an empty array.  This holds for any arithmetic: zero currents,
    infinities and NaN included. *)
Theorem last_section_always_evaluated :
  (forall S, startingSequenceLength startingSequence <= S ->
             skip_test startingSequence S = Done false)
  /\ (numberOfSections testParams = startingSequenceLength startingSequence ->
      1 <= numberOfSections testParams ->
      (exists totals,
          sections_loop testParams startingSequence ampsByDurationFunction
          = Done totals
          /\ totals <> [])
      \/ (verbose testParams = true
          /\ exists e,
               numeric e
               /\ sections_loop testParams startingSequence
                    ampsByDurationFunction
                  = Raise e))
  /\ (numberOfSections testParams = startingSequenceLength startingSequence ->
      process testParams startingSequence ampsByDurationFunction
      <> Raise ValueError_empty_max).
Proof.
  assert (Hloop :
    numberOfSections testParams = startingSequenceLength startingSequence ->
    1 <= numberOfSections testParams ->
    (exists totals,
        sections_loop testParams startingSequence ampsByDurationFunction
        = Done totals
        /\ totals <> [])
    \/ (verbose testParams = true
        /\ exists e,
             numeric e
             /\ sections_loop testParams startingSequence
                  ampsByDurationFunction
                = Raise e)).
  { intros Hn H1.
    destruct (sections_loop_outcomes ltac:(lia)) as [[totals [E [_ H2]]]|R];
      [|right; exact R].
    left. exists totals. split; [exact E|].
    apply (H2 (numberOfSections testParams)); [lia|].
    apply skip_test_last. lia. }
  split; [exact skip_test_last|]. split; [exact Hloop|].
  intros Hn. unfold process.
  destruct (Z_lt_le_dec (numberOfSections testParams) 1) as [Hlt|Hge].
  - rewrite checkPeriod_raises by (left; exact Hlt). cbn [rbind]. discriminate.
  - rewrite checkPeriod_passes by lia. cbn [rbind].
    destruct (Hloop Hn Hge) as [[totals [E Hne]]|[_ [e [He E]]]];
      rewrite E; cbn [rbind].
    + destruct (aggregate_cases totals ltac:(lia) Hne)
        as [[r Er]|[e [He Er]]]; rewrite Er; [discriminate|].
      destruct He as [-> | ->]; discriminate.
    + destruct He as [-> | ->]; discriminate.
Qed.

(** X2. The only exceptions a run can end with, for any arithmetic: the range
    [IndexError] on [numberOfSections] (exactly when it is out of range);
    the [ValueError] of the maximum of an empty array (then every section was
    skipped); an [OverflowError] or a [ValueError] of a conversion between
    integers and floats, either in a verbose line or in the [int()] of the
    number of batteries.  No lookup inside the loops ever raises. *)
Theorem process_exceptions (e : exn) :
  process testParams startingSequence ampsByDurationFunction = Raise e ->
  (e = IndexError_unfit "testParams.numberOfSections"
         (numberOfSections testParams)
   /\ (numberOfSections testParams < 1
       \/ numberOfSections testParams
          > startingSequenceLength startingSequence))
  \/ (e = ValueError_empty_max
      /\ 1 <= numberOfSections testParams
         <= startingSequenceLength startingSequence
      /\ forall S, 1 <= S <= numberOfSections testParams ->
                   skip_test startingSequence S = Done true)
  \/ (numeric e
      /\ 1 <= numberOfSections testParams
         <= startingSequenceLength startingSequence
      /\ (verbose testParams = true
          \/ exists totals,
               sections_loop testParams startingSequence
                 ampsByDurationFunction
               = Done totals
               /\ totals <> []
               /\ aggregate testParams startingSequence totals = Raise e)).
Proof.
  unfold process. intros E.
  destruct (Z_lt_le_dec (numberOfSections testParams) 1) as [Hlt|Hge];
    [|destruct (Z_lt_le_dec (startingSequenceLength startingSequence)
                  (numberOfSections testParams)) as [Hgt|Hle]].
  - left. rewrite checkPeriod_raises in E by (left; exact Hlt).
    cbn [rbind] in E. injection E as <-.
    split; [reflexivity|left; exact Hlt].
  - left. rewrite checkPeriod_raises in E by (right; lia).
    cbn [rbind] in E. injection E as <-.
    split; [reflexivity|right; lia].
  - right.
    assert (Hn : 1 <= numberOfSections testParams
                 <= startingSequenceLength startingSequence) by lia.
    rewrite checkPeriod_passes in E by exact Hn. cbn [rbind] in E.
    destruct (sections_loop_outcomes Hn)
      as [[totals [L [H1 _]]]|[V [e' [He' L]]]]; rewrite L in E;
      cbn [rbind] in E.
    + destruct totals as [|t ts].
      * left. unfold aggregate in E.
        destruct (cycleAtPeriod_returns _ Hn) as [c Ec]. rewrite Ec in E.
        cbn [rbind np_max] in E. injection E as <-.
        split; [reflexivity|]. split; [exact Hn|]. apply H1. reflexivity.
      * right.
        destruct (aggregate_cases (t :: ts) Hn ltac:(discriminate))
          as [[r Er]|[e' [He' Er]]]; rewrite Er in E; [discriminate E|].
        injection E as <-.
        split; [exact He'|]. split; [exact Hn|]. right.
        exists (t :: ts). split; [exact L|]. split; [discriminate|exact Er].
    + right. injection E as <-.
      split; [exact He'|]. split; [exact Hn|]. left. exact V.
Qed.

End Facts.

End GenericFacts.

Lemma last_section_always_evaluated_witness :
  Generic.numberOfSections (Generic.params 2 false)
  = Generic.startingSequenceLength Generic.twoPeriods
  /\ 1 <= Generic.numberOfSections (Generic.params 2 false)
  /\ Generic.skip_test Generic.twoPeriods 2 = Generic.Done false
  /\ (exists totals,
         Generic.sections_loop (Generic.params 2 false) Generic.twoPeriods
           curve
         = Generic.Done totals
         /\ totals <> [])
  /\ Generic.process (Generic.params 2 false) Generic.twoPeriods curve
     <> Generic.Raise Generic.ValueError_empty_max.
Proof.
  assert (H1 : 1 <= Generic.numberOfSections (Generic.params 2 false))
    by (cbn; lia).
  destruct (GenericFacts.last_section_always_evaluated Generic.rationals
              (Generic.params 2 false) Generic.twoPeriods curve)
    as [Hskip [Hloop Hmax]].
  split; [reflexivity|]. split; [exact H1|]. split; [|split].
  - apply Hskip. vm_compute. discriminate.
  - destruct (Hloop eq_refl H1) as [Hdone|[V _]]; [exact Hdone|].
    discriminate V.
  - exact (Hmax eq_refl).
Defined.

Lemma process_exceptions_witness :
  Generic.process (Generic.params 1 false) Generic.twoPeriods curve
  = Generic.Raise Generic.ValueError_empty_max
  /\ forall S, 1 <= S <= 1 ->
               Generic.skip_test Generic.twoPeriods S = Generic.Done true.
Proof.
  assert (E : Generic.process (Generic.params 1 false) Generic.twoPeriods
                curve
              = Generic.Raise Generic.ValueError_empty_max) by reflexivity.
  split; [exact E|].
  destruct (GenericFacts.process_exceptions Generic.rationals
              (Generic.params 1 false) Generic.twoPeriods curve
              Generic.ValueError_empty_max E)
    as [[H _]|[[_ [_ H]]|[[H|H] _]]]; try discriminate H.
  exact H.
Defined.

(** In binary64, with a curve that gives a current of zero and a nominal
    capacity of 100, the factor is an infinity, the run goes on and ends in
    [int()] on [OverflowError]. *)
Example zero_current_overflows :
  forall truediv sub_int fmt_int,
    Generic.process (Generic.params64 truediv sub_int fmt_int 2)
      (Generic.twoPeriods64 truediv sub_int fmt_int)
      (fun _ => Generic.float_of_Z 0)
    = Generic.Raise Generic.OverflowError.
Proof. intros truediv sub_int fmt_int. vm_compute. reflexivity. Qed.

(** In binary64, [200 * 1.15] is just below 230 and the quotient just below
    24: 23 batteries. *)
Example margin_rounds_down :
  forall truediv sub_int fmt_int,
  exists r,
    Generic.aggregate (Generic.params64_margin truediv sub_int fmt_int)
      (Generic.twoPeriods64 truediv sub_int fmt_int)
      [Generic.float_of_Z 0]
    = Generic.Done r
    /\ Generic.numberOfBatteriesRequired _ r = 23.
Proof.
  intros truediv sub_int fmt_int. eexists. split.
  - vm_compute. reflexivity.
  - reflexivity.
Qed.
